(** * youtube-video-notes: the summarization backend (backend/main.py)

    A shallow embedding of [extract_video_id], [get_transcript],
    [summarize_with_groq] and the route [summarize_video], with the
    properties of the natural-language specification stated over it. *)

From Stdlib Require Import List Ascii NArith ZArith QArith Arith Bool Lia.
From Stdlib Require String DecimalString.
Import ListNotations.
Import String.StringSyntax.
Delimit Scope string_scope with string.
Close Scope Q_scope.
Open Scope nat_scope.

Set Implicit Arguments.
Set Warnings "-abstract-large-number".

(** ** Python strings

    A Python [str] is a sequence of Unicode code points. *)

Module PyStr.

Definition char := N.
Definition str := list char.

(** A literal of the source, written as a Rocq string of ASCII characters. *)
Definition lit (s : String.string) : str :=
  map N_of_ascii (String.list_ascii_of_string s).
Arguments lit s%_string.

(** [str(n)] for a non-negative integer. *)
Definition of_nat (n : nat) : str :=
  lit (DecimalString.NilEmpty.string_of_uint (Nat.to_uint n)).

Local Open Scope N_scope.

Definition newline : char := 10.

Definition is_newline (c : char) : bool := N.eqb c newline.

Definition in_range (lo hi c : char) : bool := N.leb lo c && N.leb c hi.

(** The characters [str.strip()] removes when called without argument:
    the code points for which [str.isspace] holds. *)
Definition is_space (c : char) : bool :=
  in_range 9 13 c || in_range 28 32 c || N.eqb c 133 || N.eqb c 160
  || N.eqb c 5760 || in_range 8192 8202 c || N.eqb c 8232 || N.eqb c 8233
  || N.eqb c 8239 || N.eqb c 8287 || N.eqb c 12288.

Local Close Scope N_scope.

Fixpoint lstrip (s : str) : str :=
  match s with
  | c :: s' => if is_space c then lstrip s' else s
  | [] => []
  end.

Definition rstrip (s : str) : str := rev (lstrip (rev s)).

Definition strip (s : str) : str := rstrip (lstrip s).

(** [sep.join(parts)] *)
Fixpoint join (sep : str) (parts : list str) : str :=
  match parts with
  | [] => []
  | [p] => p
  | p :: rest => p ++ sep ++ join sep rest
  end.

End PyStr.

Import PyStr.

(** ** The fragment of Python's [re] used by the patterns of [extract_video_id]

    A backtracking matcher in continuation-passing style: alternatives are
    tried left to right, [.*] is greedy, [re.search] takes the leftmost
    position at which the pattern matches. *)

Module Re.

Inductive regex : Type :=
| Chr (c : char)                (* a literal character *)
| Cls (p : char -> bool)        (* a character set [...] *)
| Dot                           (* . : any character but a newline *)
| Bol                           (* ^ *)
| Eol                           (* $ *)
| Seq (r1 r2 : regex)
| Alt (r1 r2 : regex)           (* r1|r2 *)
| Rep (n : nat) (r : regex)     (* r{n} *)
| DotStar                       (* .* *)
| Grp (r : regex).              (* a capturing group; the patterns have one *)

(** A literal string as a sequence of [Chr]. *)
Fixpoint Lit (s : str) : regex :=
  match s with
  | [] => Rep 0 Dot
  | [c] => Chr c
  | c :: s' => Seq (Chr c) (Lit s')
  end.

Section Matcher.

Context {R : Type}.

(** A continuation receives the position reached, the rest of the input and
    the text captured by group 1 so far ([None]: the group took no part). *)
Definition cont : Type := nat -> str -> option str -> option R.

Fixpoint dot_star (i : nat) (s : str) (g : option str) (k : cont) : option R :=
  match s with
  | c :: s' =>
      if is_newline c then k i s g
      else match dot_star (S i) s' g k with
           | Some x => Some x
           | None => k i s g
           end
  | [] => k i s g
  end.

Fixpoint rmatch (r : regex) (i : nat) (s : str) (g : option str) (k : cont)
  {struct r} : option R :=
  match r with
  | Chr c =>
      match s with
      | c' :: s' => if N.eqb c' c then k (S i) s' g else None
      | [] => None
      end
  | Cls p =>
      match s with
      | c' :: s' => if p c' then k (S i) s' g else None
      | [] => None
      end
  | Dot =>
      match s with
      | c' :: s' => if is_newline c' then None else k (S i) s' g
      | [] => None
      end
  | Bol => if Nat.eqb i 0 then k i s g else None
  | Eol =>
      match s with
      | [] => k i s g
      | [c] => if is_newline c then k i s g else None
      | _ => None
      end
  | Seq r1 r2 => rmatch r1 i s g (fun j s' g' => rmatch r2 j s' g' k)
  | Alt r1 r2 =>
      match rmatch r1 i s g k with
      | Some x => Some x
      | None => rmatch r2 i s g k
      end
  | Rep n r' =>
      (fix rep (n : nat) (i : nat) (s : str) (g : option str) : option R :=
         match n with
         | O => k i s g
         | S m => rmatch r' i s g (fun j s' g' => rep m j s' g')
         end) n i s g
  | DotStar => dot_star i s g k
  | Grp r' => rmatch r' i s g (fun j s' _ => k j s' (Some (firstn (j - i) s)))
  end.

End Matcher.

(** The match object, as far as the program looks at it: [m.group(1)],
    which is [None] in Python when group 1 took no part in the match. *)
Record match_obj : Type := MatchObj { group1 : option str }.

Fixpoint search_from (r : regex) (i : nat) (s : str) : option match_obj :=
  match rmatch r i s None (fun _ _ g => Some (MatchObj g)) with
  | Some m => Some m
  | None =>
      match s with
      | [] => None
      | _ :: s' => search_from r (S i) s'
      end
  end.

(** [re.search(pattern, string)] *)
Definition search (r : regex) (s : str) : option match_obj := search_from r 0 s.

(** The words a pattern can consume, anchors apart. *)
Fixpoint lang (r : regex) (w : str) : Prop :=
  match r with
  | Chr c => w = [c]
  | Cls p => exists c, w = [c] /\ p c = true
  | Dot => exists c, w = [c] /\ is_newline c = false
  | Bol | Eol => w = []
  | Seq r1 r2 => exists w1 w2, w = w1 ++ w2 /\ lang r1 w1 /\ lang r2 w2
  | Alt r1 r2 => lang r1 w \/ lang r2 w
  | Rep n r' =>
      (fix rep (n : nat) (w : str) : Prop :=
         match n with
         | O => w = []
         | S m => exists w1 w2, w = w1 ++ w2 /\ lang r' w1 /\ rep m w2
         end) n w
  | DotStar => Forall (fun c => is_newline c = false) w
  | Grp r' => lang r' w
  end.

(** The words group 1 can hold after the pattern was tried. *)
Fixpoint grp_lang (r : regex) (w : str) : Prop :=
  match r with
  | Seq r1 r2 | Alt r1 r2 => grp_lang r1 w \/ grp_lang r2 w
  | Rep _ r' => grp_lang r' w
  | Grp r' => lang r' w \/ grp_lang r' w
  | _ => False
  end.

(** [captures r]: every match of [r] sets group 1. *)
Fixpoint captures (r : regex) : bool :=
  match r with
  | Seq r1 r2 => captures r1 || captures r2
  | Alt r1 r2 => captures r1 && captures r2
  | Rep (S _) r' => captures r'
  | Grp _ => true
  | _ => false
  end.

(** Group 1 after a match of [r] that started with group 1 at [g]. *)
Definition group_after (r : regex) (g g' : option str) : Prop :=
  (g' = g \/ exists v, g' = Some v /\ grp_lang r v)
  /\ (captures r = true -> exists v, g' = Some v /\ grp_lang r v)
  /\ (g <> None -> g' <> None).

End Re.

Import Re.

(** ** Errors and results *)

Inductive exn : Type :=
| ValueError (msg : str)
| HTTPException (status_code : nat) (detail : str)
| OtherException (msg : str).    (* raised by a collaborator; [msg] is [str(e)] *)

Definition result (A : Type) : Type := (exn + A)%type.

(** ** [extract_video_id] *)

(** [[0-9A-Za-z_-]] *)
Definition id_char (c : char) : bool :=
  (in_range 48 57 c || in_range 65 90 c || in_range 97 122 c
   || N.eqb c 95 || N.eqb c 45)%N.

(** The ASCII letters and digits, the underscore and the hyphen. *)
Definition id_alphabet : str :=
  lit "0123456789ABCDEFGHIJKLMNOPQRSTUVWXYZabcdefghijklmnopqrstuvwxyz_-".

Definition id11 : regex := Grp (Rep 11 (Cls id_char)).

Definition patterns : list regex :=
  [ Seq (Alt (Lit (lit "v=")) (Lit (lit "/"))) (Seq id11 DotStar);
    Seq (Lit (lit "embed/")) id11;
    Seq (Lit (lit "youtu.be/")) id11;
    Seq (Lit (lit "shorts/")) id11;
    Seq Bol (Seq id11 Eol) ].

(** The loop [for pattern in patterns: ... if match: return match.group(1)];
    [None] when the loop ends without a match. *)
Fixpoint first_group (ps : list regex) (youtube_url : str) : option (option str) :=
  match ps with
  | [] => None
  | pattern :: ps' =>
      match search pattern youtube_url with
      | Some m => Some (group1 m)
      | None => first_group ps' youtube_url
      end
  end.

Definition extract_video_id (youtube_url : str) : result (option str) :=
  let youtube_url := strip youtube_url in
  match first_group patterns youtube_url with
  | Some id => inr id
  | None => inl (ValueError (lit "Could not extract video ID from URL"))
  end.

(** ** The Chunker *)

Module Chunker.

(** Modelled from the spec: the text splitter behind [split_text] is
    [RecursiveCharacterTextSplitter] of the langchain library, which is
    not part of the repository.  The specification (4.1) describes it as
    fixed-stride windows: every Segment is at most [chunk_size] long,
    Segment i+1 begins [chunk_size - chunk_overlap] characters after
    Segment i, the Segments cover the input, an input that fits in one
    Segment yields that Segment, the empty input yields no Segment. *)
Fixpoint windows (fuel chunk_size chunk_overlap : nat) (text : str) : list str :=
  match fuel with
  | O => [text]
  | S fuel' =>
      if length text <=? chunk_size then [text]
      else firstn chunk_size text
             :: windows fuel' chunk_size chunk_overlap
                  (skipn (chunk_size - chunk_overlap) text)
  end.

Definition split_text (chunk_size chunk_overlap : nat) (text : str) : list str :=
  match text with
  | [] => []
  | _ :: _ => windows (length text) chunk_size chunk_overlap text
  end.

(** ceil(a / b) for an integer a and a positive integer b. *)
Definition ceil_div (a b : Z) : Z := (- ((- a) / b))%Z.

(** ceil((L - O) / (S - O)), and 1 at least: the number of Segments the
    specification gives for a text of length L. *)
Definition count_formula (chunk_size chunk_overlap L : nat) : Z :=
  Z.max 1 (ceil_div (Z.of_nat L - Z.of_nat chunk_overlap)
             (Z.of_nat chunk_size - Z.of_nat chunk_overlap)).

End Chunker.

(** ** The requests of the pipeline *)

Record SummarizationRequest : Type := {
  youtube_url : str;
  target_language : str;
  mode : str;
  user_email : str
}.

(** The default of the field [mode]. *)
Definition default_mode : str := lit "video".

Definition set_mode (m : str) (request : SummarizationRequest) : SummarizationRequest :=
  {| youtube_url := youtube_url request;
     target_language := target_language request;
     mode := m;
     user_email := user_email request |}.

Record message : Type := { role : str; content : str }.

(** The arguments of [groq_client.chat.completions.create]. *)
Record completion_request : Type := {
  model : str;
  messages : list message;
  temperature : Q;
  max_tokens : nat
}.

(** The body of the answer of the route. *)
Record summary_response : Type := { summary : str; language : str }.

Inductive log_level : Type := INFO | ERROR.

(** What the program does to the outside, in order. *)
Inductive event : Type :=
| EvLog (level : log_level) (msg : str)
| EvRequest (req : completion_request)       (* a completion request is issued *)
| EvResponse (resp : result str).            (* its response, or its failure, is received *)

(** The collaborators the program calls.  [World] is the state of the
    outside; an [inl e] is the exception [e] raised by the call.
    - [transcript_source]: lines 86-106 of [get_transcript]: the cookie file,
      the transcript list, the choice of a track and the text of its parts
      joined by spaces, with the language code;
    - [chat_completions_create]: the call of the completion client and the
      content of the first choice of its response;
    - [split_text chunk_size chunk_overlap]: the text splitter;
    - [str_HTTPException]: [str(e)] for an [HTTPException]. *)
Class Collaborators : Type := {
  World : Type;
  transcript_source : option str -> World -> result (str * str) * World;
  chat_completions_create : completion_request -> World -> result str * World;
  split_text : nat -> nat -> str -> list str;
  str_HTTPException : nat -> str -> str
}.

(** The same collaborators, the text splitter being the Chunker. *)
Definition with_chunker (E : Collaborators) : Collaborators :=
  {| World := @World E;
     transcript_source := @transcript_source E;
     chat_completions_create := @chat_completions_create E;
     split_text := Chunker.split_text;
     str_HTTPException := @str_HTTPException E |}.

(** ** A state and exception monad for the effects *)

Module Eff.

Section Monad.

Context {E : Collaborators}.

Definition state : Type := (World * list event)%type.

Definition M (A : Type) : Type := state -> result A * state.

Definition ret {A} (a : A) : M A := fun st => (inr a, st).

Definition raise {A} (e : exn) : M A := fun st => (inl e, st).

Definition bind {A B} (m : M A) (f : A -> M B) : M B :=
  fun st =>
    match m st with
    | (inr a, st') => f a st'
    | (inl e, st') => (inl e, st')
    end.

(** [try: m except Exception as e: h e] *)
Definition try_except {A} (m : M A) (h : exn -> M A) : M A :=
  fun st =>
    match m st with
    | (inr a, st') => (inr a, st')
    | (inl e, st') => h e st'
    end.

Definition emit (ev : event) : M unit :=
  fun '(w, tr) => (inr tt, (w, tr ++ [ev])).

(** A call of a collaborator that leaves no event. *)
Definition call {A} (f : World -> result A * World) : M A :=
  fun '(w, tr) => let '(r, w') := f w in (r, (w', tr)).

(** A completion call: the request goes out, then the response comes in. *)
Definition complete (req : completion_request) : M str :=
  fun '(w, tr) =>
    let '(r, w') := chat_completions_create req w in
    (r, (w', tr ++ [EvRequest req; EvResponse r])).

End Monad.

End Eff.

Import Eff.

Declare Scope eff_scope.
Delimit Scope eff_scope with eff.
Notation "x <- m ;; k" := (bind m (fun x => k))
  (at level 100, m at next level, right associativity) : eff_scope.
Notation "m ;;; k" := (bind m (fun _ => k))
  (at level 100, right associativity) : eff_scope.

(** ** The program *)

Section Program.

Context {E : Collaborators}.

Local Open Scope eff_scope.

(** [str(e)] *)
Definition str_exn (e : exn) : str :=
  match e with
  | ValueError msg => msg
  | HTTPException status_code detail => str_HTTPException status_code detail
  | OtherException msg => msg
  end.

Definition logger_info (msg : str) : M unit := emit (EvLog INFO msg).
Definition logger_error (msg : str) : M unit := emit (EvLog ERROR msg).

Definition get_transcript (youtube_url : str) : M (str * str) :=
  try_except
    (video_id <- (match extract_video_id youtube_url with
                  | inr v => ret v
                  | inl e => raise e
                  end) ;;
     call (transcript_source video_id))
    (fun e => raise (HTTPException 400 (str_exn e))).

Definition indent8 : str := lit "        ".
Definition indent4 : str := lit "    ".

Definition system_prompt (i : nat) (language_code : str) : str :=
  lit "You are an expert content summarizer. Create a detailed summary of section "
  ++ of_nat (i + 1) ++ lit " in " ++ language_code ++ lit "." ++ [newline]
  ++ indent8
  ++ lit "Maintain important details, arguments, and connections. This summary will later be part of a comprehensive final summary.".

Definition user_prompt (text_chunk : str) : str :=
  lit "Summarize the following section:" ++ [newline]
  ++ indent8 ++ lit "- Include key topics, arguments, examples" ++ [newline]
  ++ indent8 ++ lit "- Ensure logical flow and clarity" ++ [newline]
  ++ [newline]
  ++ indent8 ++ lit "Text: " ++ text_chunk.

Definition final_system_prompt (language_code : str) : str :=
  lit "You are an expert summarizer. Create a well-structured summary in "
  ++ language_code ++ lit " " ++ [newline]
  ++ indent4
  ++ lit "from the provided intermediate summaries, ensuring logical connections.".

Definition final_user_prompt (combined_summary : str) : str :=
  lit "Summarize comprehensively:" ++ [newline]
  ++ indent4 ++ lit "- Keep key points and logical flow" ++ [newline]
  ++ indent4 ++ lit "- Make it understandable for someone unfamiliar with the content" ++ [newline]
  ++ indent4 ++ lit "- Highlight any action items" ++ [newline]
  ++ [newline]
  ++ indent4 ++ lit "Intermediate summaries:" ++ [newline]
  ++ indent4 ++ combined_summary.

Definition chat_request (model_name system user : str) : completion_request :=
  {| model := model_name;
     messages := [ {| role := lit "system"; content := system |};
                   {| role := lit "user"; content := user |} ];
     temperature := (7 # 10)%Q;
     max_tokens := 8000 |}.

(** The request for section [i] (counted from 0) and the final request. *)
Definition segment_request (model_name language_code : str) (i : nat) (text_chunk : str)
  : completion_request :=
  chat_request model_name (system_prompt i language_code) (user_prompt text_chunk).

Definition section_separator : str :=
  [newline; newline] ++ lit "=== Next Section ===" ++ [newline; newline].

Definition synthesis_request (model_name language_code : str)
  (intermediate_summaries : list str) : completion_request :=
  let combined_summary := join section_separator intermediate_summaries in
  chat_request model_name (final_system_prompt language_code)
    (final_user_prompt combined_summary).

Definition groq_error {A} (e : exn) : M A :=
  raise (HTTPException 500 (lit "Error with Groq API: " ++ str_exn e)).

(** The loop [for i, text_chunk in enumerate(texts)], from index [i] on. *)
Fixpoint summarize_chunks (model_name language_code : str) (i : nat)
  (texts : list str) (intermediate_summaries : list str) : M (list str) :=
  match texts with
  | [] => ret intermediate_summaries
  | text_chunk :: texts' =>
      c <- try_except (complete (segment_request model_name language_code i text_chunk))
             groq_error ;;
      summarize_chunks model_name language_code (S i) texts'
        (intermediate_summaries ++ [c])
  end.

Definition default_model_name : str := lit "llama-3.1-8b-instant".

Definition summarize_with_groq (transcript language_code model_name mode : str) : M str :=
  let texts := split_text 7000 1000 transcript in
  intermediate_summaries <- summarize_chunks model_name language_code 0 texts [] ;;
  try_except (complete (synthesis_request model_name language_code intermediate_summaries))
    groq_error.

Definition summarize_video (request : SummarizationRequest) : M summary_response :=
  logger_info (lit "User '" ++ user_email request ++ lit "' requested summary for "
               ++ youtube_url request) ;;;
  try_except
    (tl <- get_transcript (youtube_url request) ;;
     let '(transcript, language_code) := tl in
     s <- summarize_with_groq transcript (target_language request)
            default_model_name (mode request) ;;
     logger_info (lit "Successfully summarized video for user '"
                  ++ user_email request ++ lit "'") ;;;
     ret {| summary := s; language := target_language request |})
    (fun e =>
       logger_error (lit "Error summarizing video: " ++ str_exn e) ;;;
       raise (HTTPException 500 (lit "Internal Server Error"))).

End Program.

(** ** Reading a trace *)

Definition requests (tr : list event) : list completion_request :=
  flat_map (fun ev => match ev with EvRequest r => [r] | _ => [] end) tr.

Definition responses (tr : list event) : list (result str) :=
  flat_map (fun ev => match ev with EvResponse r => [r] | _ => [] end) tr.

(** The completion requests of the sections [i], [i+1], ... for [texts]. *)
Fixpoint segment_requests (model_name language_code : str) (i : nat)
  (texts : list str) : list completion_request :=
  match texts with
  | [] => []
  | t :: texts' =>
      segment_request model_name language_code i t
        :: segment_requests model_name language_code (S i) texts'
  end.

(** Request, response, request, response, ...: one pair per section. *)
Fixpoint segment_events (model_name language_code : str) (i : nat)
  (texts sums : list str) : list event :=
  match texts, sums with
  | t :: texts', c :: sums' =>
      EvRequest (segment_request model_name language_code i t)
        :: EvResponse (inr c)
        :: segment_events model_name language_code (S i) texts' sums'
  | _, _ => []
  end.

(** The runs of [summarize_with_groq] over the sections [texts]: a success,
    a failure of the final call, or a failure of the call for section [k]. *)
Inductive run_shape {E : Collaborators} (model_name language_code : str)
  (texts : list str) (r : result str) (tr : list event) : Prop :=
| run_ok (sums : list str) (s : str) :
    length sums = length texts -> r = inr s ->
    tr = segment_events model_name language_code 0 texts sums
         ++ [EvRequest (synthesis_request model_name language_code sums);
             EvResponse (inr s)] ->
    run_shape model_name language_code texts r tr
| run_synthesis_failed (sums : list str) (e : exn) :
    length sums = length texts ->
    r = inl (HTTPException 500 (lit "Error with Groq API: " ++ str_exn e)) ->
    tr = segment_events model_name language_code 0 texts sums
         ++ [EvRequest (synthesis_request model_name language_code sums);
             EvResponse (inl e)] ->
    run_shape model_name language_code texts r tr
| run_section_failed (k : nat) (sums : list str) (e : exn) (t : str) :
    nth_error texts k = Some t -> length sums = k ->
    r = inl (HTTPException 500 (lit "Error with Groq API: " ++ str_exn e)) ->
    tr = segment_events model_name language_code 0 (firstn k texts) sums
         ++ [EvRequest (segment_request model_name language_code k t);
             EvResponse (inl e)] ->
    run_shape model_name language_code texts r tr.

(** ** Concrete collaborators, to run the program on examples *)

Module Demo.

(** The outside is a counter of completion calls; call number [fail_at]
    (counted from 0) fails, every other call answers. *)
Definition service (fail_at : nat) : Collaborators :=
  {| World := nat;
     transcript_source := fun _ n => (inr (lit "some words", lit "en"), n);
     chat_completions_create := fun _ n =>
       (if Nat.eqb n fail_at then inl (OtherException (lit "rate limit"))
        else inr (lit "summary " ++ of_nat n), S n);
     split_text := Chunker.split_text;
     str_HTTPException := fun status_code detail =>
       of_nat status_code ++ lit ": " ++ detail |}.

(** A transcript of 13,500 characters: three Segments. *)
Definition transcript : str := repeat 97%N 13500.

Definition request (url : str) : SummarizationRequest :=
  {| youtube_url := url;
     target_language := lit "en";
     mode := default_mode;
     user_email := lit "user@example.org" |}.

End Demo.

(** ** A direct reading of the five patterns *)

Module Scan.

(** The first [n] characters of [s] when each is in the class [p]. *)
Fixpoint take_class (p : char -> bool) (n : nat) (s : str) : option str :=
  match n with
  | O => Some []
  | S n' =>
      match s with
      | c :: s' =>
          if p c then
            match take_class p n' s' with
            | Some w => Some (c :: w)
            | None => None
            end
          else None
      | [] => None
      end
  end.

Fixpoint starts_with (prefix s : str) : bool :=
  match prefix, s with
  | [], _ => true
  | c :: prefix', d :: s' => N.eqb d c && starts_with prefix' s'
  | _ :: _, [] => false
  end.

(** The 11 identifier characters that follow [marker] at the head of [s]. *)
Definition id_after (marker s : str) : option str :=
  if starts_with marker s then take_class id_char 11 (skipn (length marker) s)
  else None.

(** The identifier after the leftmost "v=" or "/" that has one. *)
Fixpoint leftmost_id (s : str) : option str :=
  match id_after (lit "v=") s with
  | Some id => Some id
  | None =>
      match id_after (lit "/") s with
      | Some id => Some id
      | None =>
          match s with
          | [] => None
          | _ :: s' => leftmost_id s'
          end
      end
  end.

(** [s] itself when it is 11 identifier characters, a final newline apart. *)
Definition bare_id (s : str) : option str :=
  match take_class id_char 11 s with
  | Some id =>
      match skipn 11 s with
      | [] => Some id
      | [c] => if is_newline c then Some id else None
      | _ => None
      end
  | None => None
  end.

(** [x] ends with a character that is not white space. *)
Definition ends_solid (x : str) : Prop :=
  exists x' c, x = x' ++ [c] /\ is_space c = false.

(** The continuation of [search_from]: the match is complete. *)
Definition final : @cont match_obj := fun _ _ g => Some (MatchObj g).

Definition video_id_of (s : str) : option str :=
  match leftmost_id s with
  | Some id => Some id
  | None => bare_id s
  end.

End Scan.

(** ** Reading the runs of the route *)

Definition is_log (ev : event) : bool :=
  match ev with
  | EvLog _ _ => true
  | _ => false
  end.

(** The parameters every completion request of the program carries. *)
Definition standard_request (model_name : str) (req : completion_request) : Prop :=
  model req = model_name
  /\ temperature req = (7 # 10)%Q
  /\ max_tokens req = 8000
  /\ map role (messages req) = [lit "system"; lit "user"].

(** The same collaborators, the transcript source telling no language. *)
Definition forget_language (E : Collaborators) : Collaborators :=
  {| World := @World E;
     transcript_source := fun video_id w =>
       match @transcript_source E video_id w with
       | (inr (text, _), w') => (inr (text, []), w')
       | (inl e, w') => (inl e, w')
       end;
     chat_completions_create := @chat_completions_create E;
     split_text := @split_text E;
     str_HTTPException := @str_HTTPException E |}.

(** The two first lines and the last line the route logs. *)
Definition log_requested (request : SummarizationRequest) : event :=
  EvLog INFO (lit "User '" ++ user_email request ++ lit "' requested summary for "
              ++ youtube_url request).

Definition log_summarized (request : SummarizationRequest) : event :=
  EvLog INFO (lit "Successfully summarized video for user '"
              ++ user_email request ++ lit "'").

Definition log_failed {E : Collaborators} (e : exn) : event :=
  EvLog ERROR (lit "Error summarizing video: " ++ str_exn e).

(** The runs of the route: what is returned, and the trace. *)
Inductive route_run {E : Collaborators} (request : SummarizationRequest) :
  result summary_response -> list event -> Prop :=
| route_ok (s : str) (mid : list event) :
    Forall (fun ev => is_log ev = false) mid ->
    route_run request
      (inr {| summary := s; language := target_language request |})
      (log_requested request :: mid ++ [log_summarized request])
| route_failed (e : exn) (mid : list event) :
    Forall (fun ev => is_log ev = false) mid ->
    route_run request
      (inl (HTTPException 500 (lit "Internal Server Error")))
      (log_requested request :: mid ++ [log_failed e]).

(** ** The body of [get_transcript] and [load_environment] *)

(** The operating system, as the program asks it:
    - [getenv name]: [os.getenv(name)], [None] when the variable is not set;
    - [path_exists path]: [os.path.exists(path)];
    - [read_file path]: [open(path, 'r')] and [f.read()];
    - [load_dotenv path]: what [load_dotenv(path)] does to the environment;
    - [dotenv_path], [default_cookies_file]: the files .env and cookies.txt
      beside the program. *)
Class Os (E : Collaborators) : Type := {
  getenv : str -> @World E -> option str;
  path_exists : str -> @World E -> bool;
  read_file : str -> @World E -> result str * @World E;
  load_dotenv : str -> @World E -> @World E;
  dotenv_path : str;
  default_cookies_file : str
}.

(** The transcript library, as the program calls it:
    - [list_transcripts video_id cookies]:
      [YouTubeTranscriptApi.list_transcripts(video_id, cookies=...)];
    - [first_track l]: [next(iter(l))];
    - [fetch t]: [t.fetch()], a list of parts; [part_text] is [part['text']]. *)
Class TranscriptApi (E : Collaborators) : Type := {
  transcript_list : Type;
  track : Type;
  part : Type;
  part_text : part -> str;
  track_language_code : track -> str;
  list_transcripts : option str -> str -> @World E -> result transcript_list * @World E;
  find_manually_created_transcript :
    transcript_list -> @World E -> result track * @World E;
  first_track : transcript_list -> @World E -> result track * @World E;
  fetch : track -> @World E -> result (list part) * @World E
}.

Section ProgramBody.

Context {E : Collaborators} {O : Os E} {A : TranscriptApi E}.

Local Open Scope eff_scope.

(** A read of the outside that cannot fail. *)
Definition look {B} (f : World -> B) : M B := call (fun w => (inr (f w), w)).

Definition load_environment : M str :=
  found <- look (path_exists dotenv_path) ;;
  (if (found : bool) then call (fun w => (inr tt, load_dotenv dotenv_path w))
   else ret tt) ;;;
  api_key <- look (getenv (lit "GROQ_API_KEY")) ;;
  match api_key with
  | None | Some [] =>
      raise (ValueError (lit "GROQ_API_KEY not found in environment variables"))
  | Some (c :: k) => ret (c :: k)
  end.

(** [os.getenv('COOKIE_PATH', default)] *)
Definition cookies_file_at (w : World) : str :=
  match getenv (lit "COOKIE_PATH") w with
  | Some path => path
  | None => default_cookies_file
  end.

(** Lines 87-93: the cookie file, which must exist and hold something. *)
Definition cookies_file_checked : M str :=
  cookies_file <- look cookies_file_at ;;
  found <- look (path_exists cookies_file) ;;
  if negb found then
    raise (HTTPException 400 (lit "Cookie file not found. Please set up authentication."))
  else
    text <- call (read_file cookies_file) ;;
    match strip text with
    | [] =>
        raise (HTTPException 400
                 (lit "Cookie file is empty. Please re-export your cookies."))
    | _ :: _ => ret cookies_file
    end.

(** Lines 97-103: the manually created transcript, or else the first one. *)
Definition choose_transcript (l : transcript_list) : M track :=
  try_except (call (find_manually_created_transcript l))
    (fun _ =>
       try_except (call (first_track l))
         (fun _ =>
            raise (HTTPException 400
                     (lit "Your YouTube cookies might have expired. Please refresh them.")))).

(** [get_transcript] with its body, lines 82-109. *)
Definition get_transcript_full (youtube_url : str) : M (str * str) :=
  try_except
    (video_id <- (match extract_video_id youtube_url with
                  | inr v => ret v
                  | inl e => raise e
                  end) ;;
     cookies_file <- cookies_file_checked ;;
     l <- call (list_transcripts video_id cookies_file) ;;
     transcript <- choose_transcript l ;;
     parts <- call (fetch transcript) ;;
     let full_transcript := join (lit " ") (map part_text parts) in
     ret (full_transcript, track_language_code transcript))
    (fun e => raise (HTTPException 400 (str_exn e))).

(** Lines 86-106 alone: what follows the extraction of the identifier. *)
Definition fetch_steps (video_id : option str) : M (str * str) :=
  cookies_file <- cookies_file_checked ;;
  l <- call (list_transcripts video_id cookies_file) ;;
  transcript <- choose_transcript l ;;
  parts <- call (fetch transcript) ;;
  ret (join (lit " ") (map part_text parts), track_language_code transcript).

End ProgramBody.

(** Collaborators whose transcript source is the body of [get_transcript]. *)
Definition with_body (E : Collaborators) (O : Os E) (A : TranscriptApi E)
  : Collaborators :=
  {| World := @World E;
     transcript_source := fun video_id w =>
       match fetch_steps video_id (w, []) with
       | (r, (w', _)) => (r, w')
       end;
     chat_completions_create := @chat_completions_create E;
     split_text := @split_text E;
     str_HTTPException := @str_HTTPException E |}.

Module DemoOs.

(** An outside with no variable set, where the cookie file exists or not
    and holds [cookies]; the world is the counter of [Demo.service]. *)
Definition os (cookie_file_exists : bool) (cookies : str) : Os (Demo.service 9) :=
  {| getenv := fun _ _ => None;
     path_exists := fun _ _ => cookie_file_exists;
     read_file := fun _ w => (inr cookies, w);
     load_dotenv := fun _ w => w;
     dotenv_path := lit ".env";
     default_cookies_file := lit "cookies.txt" |}.

(** A track: manually created or not, its language, its parts. *)
Definition demo_track : Type := (bool * str * list str)%type.

Definition api (tracks : list demo_track) : TranscriptApi (Demo.service 9) :=
  {| transcript_list := list demo_track;
     track := demo_track;
     part := str;
     part_text := fun p => p;
     track_language_code := fun t => snd (fst t);
     list_transcripts := fun _ _ w => (inr tracks, w);
     find_manually_created_transcript := fun l w =>
       (match filter (fun t : demo_track => fst (fst t)) l with
        | t :: _ => inr t
        | [] => inl (OtherException (lit "NoTranscriptFound"))
        end, w);
     first_track := fun l w =>
       (match l with
        | t :: _ => inr t
        | [] => inl (OtherException (lit "StopIteration"))
        end, w);
     fetch := fun t w => (inr (snd t), w) |}.


End DemoOs.

(** * Properties *)

(** ** The Chunker *)

Module ChunkerFacts.

Import Chunker.

Lemma ceil_div_le_1 (a b : Z) : (0 < b)%Z -> (a <= b)%Z -> (ceil_div a b <= 1)%Z.
Proof.
  intros Hb Hab. unfold ceil_div.
  assert (-1 <= (- a) / b)%Z by (apply Z.div_le_lower_bound; lia).
  lia.
Qed.

Lemma ceil_div_ge_1 (a b : Z) : (0 < b)%Z -> (0 < a)%Z -> (1 <= ceil_div a b)%Z.
Proof.
  intros Hb Ha. unfold ceil_div.
  assert ((- a) / b < 0)%Z by (apply Z.div_lt_upper_bound; lia).
  lia.
Qed.

Lemma ceil_div_step (a b : Z) : (0 < b)%Z -> (ceil_div (a + b) b = ceil_div a b + 1)%Z.
Proof.
  intros Hb. unfold ceil_div.
  replace (- (a + b))%Z with (- a + (-1) * b)%Z by lia.
  rewrite Z.div_add by lia. lia.
Qed.

Section Windows.

Variables chunk_size chunk_overlap : nat.
Hypothesis overlap_lt_size : chunk_overlap < chunk_size.

Let stride : nat := chunk_size - chunk_overlap.

Lemma windows_count (fuel : nat) : forall text,
  length text <= fuel ->
  Z.of_nat (length (windows fuel chunk_size chunk_overlap text))
  = count_formula chunk_size chunk_overlap (length text).
Proof.
  unfold count_formula.
  induction fuel as [|fuel IH]; intros text Hfuel; cbn [windows].
  - assert (ceil_div (Z.of_nat (length text) - Z.of_nat chunk_overlap)
              (Z.of_nat chunk_size - Z.of_nat chunk_overlap) <= 1)%Z
      by (apply ceil_div_le_1; lia).
    cbn [length]. lia.
  - destruct (Nat.leb_spec (length text) chunk_size) as [Hle|Hgt].
    + assert (ceil_div (Z.of_nat (length text) - Z.of_nat chunk_overlap)
                (Z.of_nat chunk_size - Z.of_nat chunk_overlap) <= 1)%Z
        by (apply ceil_div_le_1; lia).
      cbn [length]. lia.
    + cbn [length]. rewrite Nat2Z.inj_succ, IH by (rewrite length_skipn; lia).
      rewrite length_skipn.
      set (d := (Z.of_nat chunk_size - Z.of_nat chunk_overlap)%Z).
      replace (Z.of_nat (length text) - Z.of_nat chunk_overlap)%Z
        with ((Z.of_nat (length text - (chunk_size - chunk_overlap))
               - Z.of_nat chunk_overlap) + d)%Z by (subst d; lia).
      rewrite ceil_div_step by (subst d; lia).
      assert (1 <= ceil_div (Z.of_nat (length text - (chunk_size - chunk_overlap))
                             - Z.of_nat chunk_overlap) d)%Z
        by (apply ceil_div_ge_1; subst d; lia).
      lia.
Qed.

Lemma windows_nth (fuel : nat) : forall text i,
  length text <= fuel ->
  i < length (windows fuel chunk_size chunk_overlap text) ->
  nth_error (windows fuel chunk_size chunk_overlap text) i
  = Some (firstn chunk_size (skipn (i * stride) text)).
Proof.
  induction fuel as [|fuel IH]; intros text i Hfuel Hi; cbn [windows] in *.
  - cbn [length] in Hi. assert (i = 0) by lia. subst i. cbn.
    rewrite firstn_all2 by lia. reflexivity.
  - destruct (Nat.leb_spec (length text) chunk_size) as [Hle|Hgt].
    + cbn [length] in Hi. assert (i = 0) by lia. subst i. cbn.
      rewrite firstn_all2 by lia. reflexivity.
    + destruct i as [|i]; [reflexivity|].
      cbn [length] in Hi. cbn [nth_error].
      rewrite IH by (rewrite ?length_skipn; lia).
      rewrite skipn_skipn. do 3 f_equal. subst stride. lia.
Qed.

Lemma split_text_count (text : str) :
  text <> [] ->
  Z.of_nat (length (split_text chunk_size chunk_overlap text))
  = count_formula chunk_size chunk_overlap (length text).
Proof.
  intros Hne. destruct text as [|c text]; [congruence|].
  unfold split_text. apply windows_count. lia.
Qed.

Lemma split_text_nth (text : str) (i : nat) :
  i < length (split_text chunk_size chunk_overlap text) ->
  nth_error (split_text chunk_size chunk_overlap text) i
  = Some (firstn chunk_size (skipn (i * stride) text)).
Proof.
  destruct text as [|c text]; [cbn; lia|].
  unfold split_text. apply windows_nth. lia.
Qed.

Lemma split_text_short (text : str) :
  text <> [] -> length text <= chunk_size ->
  split_text chunk_size chunk_overlap text = [text].
Proof.
  intros Hne Hle. destruct text as [|c text]; [congruence|].
  unfold split_text. remember (c :: text) as t. 
  destruct (length t) as [|n] eqn:Hn; [subst; discriminate|].
  cbn [windows]. rewrite Hn.
  destruct (Nat.leb_spec (S n) chunk_size); [reflexivity|lia].
Qed.

End Windows.

End ChunkerFacts.


(** Equations between large closed numbers, decided by [Nat.eqb]. *)
Ltac by_eqb := apply Nat.eqb_eq; vm_compute; reflexivity.

Lemma big_consts :
  1000 < 7000 /\ 7000 - 1000 = 6000 /\ Z.of_nat 7000 = 7000%Z /\ Z.of_nat 1000 = 1000%Z
  /\ Z.of_nat 20500 = 20500%Z.
Proof.
  split; [apply Nat.ltb_lt; vm_compute; reflexivity|].
  split; [by_eqb|].
  repeat split; vm_compute; reflexivity.
Qed.

(** C1, for non-empty transcripts. A non-empty transcript of length L,
    chunked with maximum segment size 7000 and overlap 1000, gives
    max(1, ceil((L - 1000) / 6000)) Segments, and Segment i is the part of
    the transcript that starts at character offset i * 6000, 7000 characters
    long at most; a transcript of 20,500 characters gives 4 Segments, at the
    offsets 0, 6000, 12000 and 18000, the last of length 2500. *)
Theorem chunker_segments_nonempty (transcript : str) :
  transcript <> [] ->
  let segs := Chunker.split_text 7000 1000 transcript in
  Z.of_nat (length segs)
  = Z.max 1 (Chunker.ceil_div (Z.of_nat (length transcript) - 1000) (7000 - 1000))
  /\ (forall i, i < length segs ->
        nth_error segs i = Some (firstn 7000 (skipn (i * 6000) transcript)))
  /\ (length transcript = 20500 ->
        segs = [ firstn 7000 transcript;
                 firstn 7000 (skipn 6000 transcript);
                 firstn 7000 (skipn 12000 transcript);
                 firstn 7000 (skipn 18000 transcript) ]
        /\ map (@length char) segs = [7000; 7000; 7000; 2500]).
Proof.
  intros Hne segs.
  destruct big_consts as (Hlt & Hstride & HS & HO & HL).
  assert (Hcount : Z.of_nat (length segs)
            = Z.max 1 (Chunker.ceil_div (Z.of_nat (length transcript) - 1000) (7000 - 1000))).
  { subst segs. rewrite (ChunkerFacts.split_text_count Hlt Hne). unfold Chunker.count_formula.
    rewrite HS, HO. reflexivity. }
  assert (Hnth : forall i, i < length segs ->
            nth_error segs i = Some (firstn 7000 (skipn (i * 6000) transcript))).
  { intros i Hi. subst segs. rewrite (ChunkerFacts.split_text_nth Hlt) by exact Hi.
    rewrite Hstride. reflexivity. }
  split; [exact Hcount|]. split; [exact Hnth|].
  intros Hlen.
  assert (H4 : length segs = 4).
  { apply Nat2Z.inj. rewrite Hcount, Hlen, HL. vm_compute. reflexivity. }
  assert (Hsegs : segs = [ firstn 7000 transcript;
                           firstn 7000 (skipn 6000 transcript);
                           firstn 7000 (skipn 12000 transcript);
                           firstn 7000 (skipn 18000 transcript) ]).
  { pose proof (Hnth 0) as N0. pose proof (Hnth 1) as N1.
    pose proof (Hnth 2) as N2. pose proof (Hnth 3) as N3.
    rewrite H4 in N0, N1, N2, N3.
    replace (0 * 6000) with 0 in N0 by reflexivity.
    replace (1 * 6000) with 6000 in N1 by by_eqb.
    replace (2 * 6000) with 12000 in N2 by by_eqb.
    replace (3 * 6000) with 18000 in N3 by by_eqb.
    specialize (N0 ltac:(lia)). specialize (N1 ltac:(lia)).
    specialize (N2 ltac:(lia)). specialize (N3 ltac:(lia)).
    cbn [skipn] in N0.
    clear Hnth Hcount.
    generalize dependent (firstn 7000 transcript).
    generalize dependent (firstn 7000 (skipn 6000 transcript)).
    generalize dependent (firstn 7000 (skipn 12000 transcript)).
    generalize dependent (firstn 7000 (skipn 18000 transcript)).
    intros e3 N3 e2 N2 e1 N1 e0 N0.
    destruct segs as [|s0 [|s1 [|s2 [|s3 [|s4 rest]]]]]; try discriminate H4.
    cbn [nth_error] in N0, N1, N2, N3. clear - N0 N1 N2 N3.
    injection N0 as ->. injection N1 as ->. injection N2 as ->. injection N3 as ->.
    reflexivity. }
  split; [exact Hsegs|].
  rewrite Hsegs. cbn [map].
  rewrite !length_firstn, !length_skipn, Hlen.
  repeat (f_equal; [by_eqb|]). reflexivity.
Qed.

(** The hypothesis of [chunker_segments_nonempty] on a transcript of 20,500
    characters. *)
Lemma chunker_segments_nonempty_witness :
  let transcript := repeat 97%N 20500 in
  let segs := Chunker.split_text 7000 1000 transcript in
  Z.of_nat (length segs)
  = Z.max 1 (Chunker.ceil_div (Z.of_nat (length transcript) - 1000) (7000 - 1000))
  /\ (forall i, i < length segs ->
        nth_error segs i = Some (firstn 7000 (skipn (i * 6000) transcript)))
  /\ (length transcript = 20500 ->
        segs = [ firstn 7000 transcript;
                 firstn 7000 (skipn 6000 transcript);
                 firstn 7000 (skipn 12000 transcript);
                 firstn 7000 (skipn 18000 transcript) ]
        /\ map (@length char) segs = [7000; 7000; 7000; 2500]).
Proof.
  intros transcript.
  apply (@chunker_segments_nonempty transcript).
  subst transcript. intros H.
  apply (f_equal (@length char)) in H. rewrite repeat_length in H.
  apply Nat.eqb_eq in H. vm_compute in H. discriminate H.
Defined.

(** The empty transcript gives no Segment, where the formula gives 1. *)
Lemma chunker_segments_empty_counterexample :
  Z.of_nat (length (Chunker.split_text 7000 1000 []))
  <> Z.max 1 (Chunker.ceil_div (Z.of_nat (length (@nil char)) - 1000) (7000 - 1000)).
Proof. vm_compute. discriminate. Qed.

(** C6, for non-empty transcripts. A non-empty transcript strictly shorter than the maximum
    segment size, 7000 characters, gives exactly one Segment, the whole
    transcript. *)
Theorem chunker_short_transcript (transcript : str) :
  transcript <> [] ->
  length transcript < 7000 ->
  Chunker.split_text 7000 1000 transcript = [transcript].
Proof.
  intros Hne Hlt.
  apply ChunkerFacts.split_text_short;
    [exact (proj1 big_consts)|exact Hne|apply Nat.lt_le_incl, Hlt].
Qed.

Lemma chunker_short_transcript_witness :
  Chunker.split_text 7000 1000 (lit "hello world") = [lit "hello world"].
Proof.
  apply chunker_short_transcript.
  - discriminate.
  - apply Nat.ltb_lt. vm_compute. reflexivity.
Defined.

(** The empty transcript is shorter than 7000 characters and gives no
    Segment at all. *)
Lemma chunker_short_transcript_counterexample :
  length (@nil char) < 7000 /\ Chunker.split_text 7000 1000 [] <> [[]].
Proof.
  split; [apply Nat.ltb_lt; vm_compute; reflexivity|]. cbn. discriminate.
Qed.


(** ** The matcher *)

Module ReFacts.

Section Soundness.

Context {R : Type}.

Lemma dot_star_sound (k : @cont R) : forall s i g x,
  dot_star i s g k = Some x ->
  exists w s', s = w ++ s' /\ Forall (fun c => is_newline c = false) w
               /\ k (i + length w) s' g = Some x.
Proof.
  induction s as [|c s IH]; intros i g x H; cbn [dot_star] in H.
  - exists [], []. cbn. rewrite Nat.add_0_r. auto.
  - destruct (is_newline c) eqn:Hc.
    + exists [], (c :: s). cbn. rewrite Nat.add_0_r. auto.
    + destruct (dot_star (S i) s g k) as [y|] eqn:Hd.
      * injection H as <-. apply IH in Hd as (w & s' & -> & Hw & Hk).
        exists (c :: w), s'. cbn [app length]. rewrite Nat.add_succ_r.
        repeat split; auto.
      * exists [], (c :: s). cbn. rewrite Nat.add_0_r. auto.
Qed.

Lemma group_after_refl (r : regex) (g : option str) :
  captures r = false -> group_after r g g.
Proof. intros Hc. unfold group_after. rewrite Hc. repeat split; auto; discriminate. Qed.

Lemma rmatch_sound (r : regex) : forall i s g (k : @cont R) x,
  rmatch r i s g k = Some x ->
  exists w s' g', s = w ++ s' /\ lang r w /\ group_after r g g'
                  /\ k (i + length w) s' g' = Some x.
Proof.
  induction r as [c|p| | | |r1 IH1 r2 IH2|r1 IH1 r2 IH2|n r IH| |r IH];
    intros i s g k x H; cbn [rmatch] in H.
  - destruct s as [|c' s]; [discriminate|].
    destruct (N.eqb_spec c' c) as [->|]; [|discriminate].
    exists [c], s, g. cbn. rewrite Nat.add_1_r.
    repeat split; auto using group_after_refl. apply group_after_refl. reflexivity.
  - destruct s as [|c' s]; [discriminate|].
    destruct (p c') eqn:Hp; [|discriminate].
    exists [c'], s, g. cbn. rewrite Nat.add_1_r.
    repeat split; eauto. apply group_after_refl. reflexivity.
  - destruct s as [|c' s]; [discriminate|].
    destruct (is_newline c') eqn:Hp; [discriminate|].
    exists [c'], s, g. cbn. rewrite Nat.add_1_r.
    repeat split; eauto. apply group_after_refl. reflexivity.
  - destruct (Nat.eqb i 0); [|discriminate].
    exists [], s, g. cbn. rewrite Nat.add_0_r.
    repeat split; auto. apply group_after_refl. reflexivity.
  - exists [], s, g. cbn. rewrite Nat.add_0_r.
    assert (k i s g = Some x).
    { destruct s as [|c [|c' s]]; try discriminate; auto.
      destruct (is_newline c); [auto|discriminate]. }
    repeat split; auto. apply group_after_refl. reflexivity.
  - apply IH1 in H as (w1 & s1 & g1 & -> & L1 & (G1 & C1 & N1) & H).
    apply IH2 in H as (w2 & s2 & g2 & -> & L2 & (G2 & C2 & N2) & H).
    exists (w1 ++ w2), s2, g2. rewrite length_app, Nat.add_assoc, <- app_assoc.
    repeat split; auto.
    + cbn [lang]. eauto.
    + cbn [grp_lang]. destruct G2 as [->|(v & -> & Hv)]; [|eauto].
      destruct G1 as [->|(v & -> & Hv)]; eauto.
    + cbn [captures grp_lang]. intros Hc. apply orb_true_iff in Hc as [Hc|Hc].
      * destruct (C1 Hc) as (v & -> & Hv).
        destruct G2 as [->|(v' & -> & Hv')]; eauto.
      * destruct (C2 Hc) as (v & -> & Hv). eauto.
  - destruct (rmatch r1 i s g k) as [y|] eqn:H1.
    + injection H as <-.
      apply IH1 in H1 as (w & s' & g' & -> & L & (G & C & N) & H).
      exists w, s', g'. repeat split; auto.
      * cbn [lang]. auto.
      * cbn [grp_lang]. destruct G as [->|(v & -> & Hv)]; eauto.
      * cbn [captures grp_lang]. intros Hc. apply andb_true_iff in Hc as [Hc _].
        destruct (C Hc) as (v & -> & Hv). eauto.
    + apply IH2 in H as (w & s' & g' & -> & L & (G & C & N) & H).
      exists w, s', g'. repeat split; auto.
      * cbn [lang]. auto.
      * cbn [grp_lang]. destruct G as [->|(v & -> & Hv)]; eauto.
      * cbn [captures grp_lang]. intros Hc. apply andb_true_iff in Hc as [_ Hc].
        destruct (C Hc) as (v & -> & Hv). eauto.
  - change (rmatch (Rep n r) i s g k = Some x) in H.
    revert i s g x H. induction n as [|n IHn]; intros i s g x H.
    + cbn in H. exists [], s, g. cbn. rewrite Nat.add_0_r.
      repeat split; auto. apply group_after_refl. reflexivity.
    + cbn [rmatch] in H.
      apply IH in H as (w1 & s1 & g1 & -> & L1 & (G1 & C1 & N1) & H).
      change (rmatch (Rep n r) (i + length w1) s1 g1 k = Some x) in H.
      apply IHn in H as (w2 & s2 & g2 & -> & L2 & (G2 & C2 & N2) & H).
      exists (w1 ++ w2), s2, g2. rewrite length_app, Nat.add_assoc, <- app_assoc.
      repeat split; auto.
      * cbn [lang]. exists w1, w2. auto.
      * cbn [grp_lang] in *. destruct G2 as [->|(v & -> & Hv)]; [|eauto].
        destruct G1 as [->|(v & -> & Hv)]; eauto.
      * cbn [captures grp_lang] in *. intros Hc.
        destruct (C1 Hc) as (v & -> & Hv).
        destruct G2 as [->|(v' & -> & Hv')]; eauto.
  - apply dot_star_sound in H as (w & s' & -> & Hw & H).
    exists w, s', g. repeat split; auto. apply group_after_refl. reflexivity.
  - apply IH in H as (w & s' & g' & -> & L & _ & H).
    replace (i + length w - i) with (length w) in H by lia.
    rewrite firstn_app, Nat.sub_diag, firstn_all, firstn_O, app_nil_r in H.
    exists w, s', (Some w). repeat split; auto.
    + right. exists w. cbn [grp_lang]. auto.
    + intros _. exists w. cbn [grp_lang]. auto.
    + discriminate.
Qed.

End Soundness.

Lemma search_from_sound (r : regex) : forall s i m,
  search_from r i s = Some m ->
  captures r = true ->
  exists v, group1 m = Some v /\ grp_lang r v.
Proof.
  induction s as [|c s IH]; intros i m H Hc; cbn [search_from] in H.
  - destruct (rmatch r i [] None _) as [y|] eqn:Hm; [|discriminate].
    injection H as <-.
    apply rmatch_sound in Hm as (w & s' & g' & _ & _ & (_ & C & _) & Hm).
    injection Hm as <-. cbn. auto.
  - destruct (rmatch r i (c :: s) None _) as [y|] eqn:Hm.
    + injection H as <-.
      apply rmatch_sound in Hm as (w & s' & g' & _ & _ & (_ & C & _) & Hm).
      injection Hm as <-. cbn. auto.
    + eauto.
Qed.

Lemma lang_rep_cls (p : char -> bool) : forall n w,
  lang (Rep n (Cls p)) w -> length w = n /\ Forall (fun c => p c = true) w.
Proof.
  induction n as [|n IH]; intros w H.
  - cbn in H. subst w. auto.
  - cbn [lang] in H. destruct H as (w1 & w2 & -> & (c & -> & Hc) & H2).
    apply IH in H2 as [Hl Hf]. cbn. auto.
Qed.

End ReFacts.

(** ** [extract_video_id] *)

Module ExtractFacts.

Import ReFacts.

Lemma lstrip_spaces (pre s : str) :
  forallb is_space pre = true -> lstrip (pre ++ s) = lstrip s.
Proof.
  induction pre as [|c pre IH]; cbn; [reflexivity|].
  intros H. apply andb_true_iff in H as [-> H]. auto.
Qed.

Lemma lstrip_app (s t : str) :
  lstrip (s ++ t) = match lstrip s with [] => lstrip t | _ :: _ => lstrip s ++ t end.
Proof.
  induction s as [|c s IH]; cbn; [destruct (lstrip t); reflexivity|].
  destruct (is_space c); [exact IH|reflexivity].
Qed.

Lemma forallb_rev {A} (f : A -> bool) (l : list A) :
  forallb f l = true -> forallb f (rev l) = true.
Proof.
  rewrite !forallb_forall. intros H x Hx. apply H, in_rev, Hx.
Qed.

Lemma rstrip_spaces (s post : str) :
  forallb is_space post = true -> rstrip (s ++ post) = rstrip s.
Proof.
  intros H. unfold rstrip. rewrite rev_app_distr, lstrip_spaces; auto using forallb_rev.
Qed.

Lemma strip_spaces (pre s post : str) :
  forallb is_space pre = true -> forallb is_space post = true ->
  strip (pre ++ s ++ post) = strip s.
Proof.
  intros Hpre Hpost. unfold strip.
  rewrite lstrip_spaces by exact Hpre. rewrite lstrip_app.
  destruct (lstrip s) as [|c l] eqn:Hs.
  - rewrite <- (app_nil_r post), lstrip_spaces by exact Hpost. reflexivity.
  - apply rstrip_spaces, Hpost.
Qed.

Lemma id_char_alphabet (c : char) : id_char c = true -> In c id_alphabet.
Proof.
  intros H.
  assert (Hc : (c <= 122)%N).
  { unfold id_char, in_range in H.
    repeat (apply orb_true_iff in H as [H|H]);
      try (apply andb_true_iff in H as [_ H]; apply N.leb_le in H; lia);
      apply N.eqb_eq in H; lia. }
  assert (Hall : forallb (fun n => implb (id_char (N.of_nat n))
                                    (existsb (N.eqb (N.of_nat n)) id_alphabet))
                   (seq 0 123) = true) by (vm_compute; reflexivity).
  rewrite forallb_forall in Hall.
  specialize (Hall (N.to_nat c)). rewrite N2Nat.id, H in Hall. cbn [implb] in Hall.
  assert (Hin : In (N.to_nat c) (seq 0 123)) by (apply in_seq; lia).
  apply Hall, existsb_exists in Hin as (a & Ha & Heq).
  apply N.eqb_eq in Heq. subst a. exact Ha.
Qed.

Lemma patterns_capture_ids :
  Forall (fun p => captures p = true
                   /\ forall v, grp_lang p v -> lang (Rep 11 (Cls id_char)) v) patterns.
Proof.
  unfold patterns. repeat constructor; cbn; intuition auto.
Qed.

Lemma first_group_sound (youtube_url : str) : forall ps g,
  Forall (fun p => captures p = true
                   /\ forall v, grp_lang p v -> lang (Rep 11 (Cls id_char)) v) ps ->
  first_group ps youtube_url = Some g ->
  exists id, g = Some id /\ length id = 11 /\ Forall (fun c => id_char c = true) id.
Proof.
  induction ps as [|p ps IH]; intros g Hps H; cbn [first_group] in H; [discriminate|].
  inversion Hps as [|? ? [Hc Hl] Hps']; subst.
  destruct (search p youtube_url) as [m|] eqn:Hm.
  - injection H as <-.
    apply search_from_sound in Hm as (v & -> & Hv); [|exact Hc].
    exists v. split; [reflexivity|]. apply lang_rep_cls, Hl, Hv.
  - eauto.
Qed.

End ExtractFacts.

Import ExtractFacts.

(** C8. The reference https://youtu.be/dQw4w9WgXcQ and the bare reference
    dQw4w9WgXcQ both give the identifier dQw4w9WgXcQ; on the reference
    "not a url" the extractor raises an error (a [ValueError]). *)
Theorem extract_video_id_scenario :
  extract_video_id (lit "https://youtu.be/dQw4w9WgXcQ") = inr (Some (lit "dQw4w9WgXcQ"))
  /\ extract_video_id (lit "dQw4w9WgXcQ") = inr (Some (lit "dQw4w9WgXcQ"))
  /\ extract_video_id (lit "not a url")
     = inl (ValueError (lit "Could not extract video ID from URL")).
Proof. repeat split; vm_compute; reflexivity. Qed.

(** C10. Whenever [extract_video_id] succeeds, what it returns is a string
    of exactly 11 characters, each an ASCII letter, a digit, a hyphen or an
    underscore; and white space before and after the reference does not
    change the outcome, as the reference is stripped before the patterns
    are tried. *)
Theorem extract_video_id_shape (youtube_url : str) :
  (forall v, extract_video_id youtube_url = inr v ->
     exists id, v = Some id /\ length id = 11
                /\ Forall (fun c => In c id_alphabet) id)
  /\ (forall pre post,
        forallb is_space pre = true -> forallb is_space post = true ->
        extract_video_id (pre ++ youtube_url ++ post) = extract_video_id youtube_url).
Proof.
  split.
  - intros v H. unfold extract_video_id in H.
    destruct (first_group patterns (strip youtube_url)) as [g|] eqn:Hg; [|discriminate].
    injection H as <-.
    apply first_group_sound in Hg as (id & -> & Hlen & Hid);
      [|exact patterns_capture_ids].
    exists id. repeat split; auto.
    eapply Forall_impl; [|exact Hid]. exact id_char_alphabet.
  - intros pre post Hpre Hpost. unfold extract_video_id.
    rewrite strip_spaces by assumption. reflexivity.
Qed.

Lemma extract_video_id_shape_witness :
  (exists id, Some (lit "dQw4w9WgXcQ") = Some id /\ length id = 11
              /\ Forall (fun c => In c id_alphabet) id)
  /\ extract_video_id (lit "  " ++ lit "https://youtu.be/dQw4w9WgXcQ" ++ [newline])
     = extract_video_id (lit "https://youtu.be/dQw4w9WgXcQ").
Proof.
  destruct (extract_video_id_shape (lit "https://youtu.be/dQw4w9WgXcQ")) as [H1 H2].
  split.
  - apply H1. vm_compute. reflexivity.
  - apply H2; vm_compute; reflexivity.
Defined.

(** ** The pipeline *)

Module PipelineFacts.

Section Runs.

Context {E : Collaborators}.

Variables model_name language_code : str.

Lemma requests_app (t1 t2 : list event) : requests (t1 ++ t2) = requests t1 ++ requests t2.
Proof. apply flat_map_app. Qed.

Lemma responses_app (t1 t2 : list event) :
  responses (t1 ++ t2) = responses t1 ++ responses t2.
Proof. apply flat_map_app. Qed.

Lemma requests_segment_events : forall texts sums i,
  length sums = length texts ->
  requests (segment_events model_name language_code i texts sums)
  = segment_requests model_name language_code i texts.
Proof.
  induction texts as [|t texts IH]; intros [|c sums] i Hl; try discriminate Hl;
    [reflexivity|].
  cbn [segment_events segment_requests]. cbn. f_equal. apply IH. cbn in Hl. lia.
Qed.

Lemma responses_segment_events : forall texts sums i,
  length sums = length texts ->
  responses (segment_events model_name language_code i texts sums) = map inr sums.
Proof.
  induction texts as [|t texts IH]; intros [|c sums] i Hl; try discriminate Hl;
    [reflexivity|].
  cbn [segment_events]. cbn. f_equal. apply IH. cbn in Hl. lia.
Qed.

Lemma segment_requests_snoc : forall texts k i t,
  nth_error texts k = Some t ->
  segment_requests model_name language_code i (firstn (k + 1) texts)
  = segment_requests model_name language_code i (firstn k texts)
    ++ [segment_request model_name language_code (i + k) t].
Proof.
  induction texts as [|t0 texts IH]; intros [|k] i t H; try discriminate H.
  - injection H as ->. cbn. rewrite Nat.add_0_r. reflexivity.
  - cbn [nth_error] in H. cbn [Nat.add firstn segment_requests app].
    rewrite (IH _ _ _ H), Nat.add_succ_r. reflexivity.
Qed.

(** What the loop over the sections does: it goes through all of them, or
    it stops at the first completion call that fails. *)
Lemma summarize_chunks_run : forall texts i acc w tr,
  exists r w' tr',
    summarize_chunks model_name language_code i texts acc (w, tr) = (r, (w', tr ++ tr'))
    /\ ((exists sums,
           length sums = length texts /\ r = inr (acc ++ sums)
           /\ tr' = segment_events model_name language_code i texts sums)
        \/ (exists k sums e t,
              nth_error texts k = Some t /\ length sums = k
              /\ r = inl (HTTPException 500 (lit "Error with Groq API: " ++ str_exn e))
              /\ tr' = segment_events model_name language_code i (firstn k texts) sums
                       ++ [EvRequest (segment_request model_name language_code (i + k) t);
                           EvResponse (inl e)])).
Proof.
  induction texts as [|t texts IH]; intros i acc w tr.
  - exists (inr acc), w, []. rewrite app_nil_r. split; [reflexivity|].
    left. exists []. rewrite app_nil_r. auto.
  - cbn [summarize_chunks]. unfold bind, try_except, complete.
    destruct (chat_completions_create
                (segment_request model_name language_code i t) w) as [[e|c] w1] eqn:Hc.
    + exists (inl (HTTPException 500 (lit "Error with Groq API: " ++ str_exn e))), w1,
        [EvRequest (segment_request model_name language_code i t); EvResponse (inl e)].
      split; [reflexivity|]. right. exists 0, [], e, t.
      rewrite Nat.add_0_r. auto.
    + destruct (IH (S i) (acc ++ [c]) w1
                  (tr ++ [EvRequest (segment_request model_name language_code i t);
                          EvResponse (inr c)]))
        as (r & w' & tr' & Hrun & Hcases).
      exists r, w',
        ([EvRequest (segment_request model_name language_code i t); EvResponse (inr c)]
         ++ tr').
      split; [rewrite Hrun, <- app_assoc; reflexivity|].
      destruct Hcases as [(sums & Hl & -> & ->)|(k & sums & e & t' & Hn & Hl & -> & ->)].
      * left. exists (c :: sums). cbn [length]. rewrite <- app_assoc.
        repeat split; auto.
      * right. exists (S k), (c :: sums), e, t'. cbn [length nth_error firstn].
        rewrite Nat.add_succ_r. repeat split; auto.
Qed.

Variables transcript mode : str.

Let texts : list str := split_text 7000 1000 transcript.

Lemma summarize_with_groq_run (w : World) r w' tr :
  summarize_with_groq transcript language_code model_name mode (w, []) = (r, (w', tr)) ->
  run_shape model_name language_code texts r tr.
Proof.
  unfold summarize_with_groq. cbv zeta. unfold bind at 1.
  destruct (summarize_chunks_run texts 0 [] w []) as (r1 & w1 & tr1 & Hrun & Hcases).
  unfold texts in Hrun. rewrite Hrun. cbn [app].
  destruct Hcases as [(sums & Hl & -> & ->)|(k & sums & e & t & Hn & Hl & -> & ->)].
  - cbn [app]. unfold try_except, complete, groq_error, raise.
    destruct (chat_completions_create
                (synthesis_request model_name language_code sums) w1) as [[e|s] w2].
    + intros H. injection H as <- <- <-. eapply run_synthesis_failed; eauto; reflexivity.
    + intros H. injection H as <- <- <-. eapply run_ok; eauto; reflexivity.
  - intros H. injection H as <- <- <-. eapply run_section_failed; eauto; reflexivity.
Qed.

End Runs.

End PipelineFacts.

Import PipelineFacts.

Lemma run_decompose {A B C} (p : A * (B * C)) : p = (fst p, (fst (snd p), snd (snd p))).
Proof. destruct p as [a [b c]]. reflexivity. Qed.

Lemma run_decompose_ok {A B C} (p : result A * (B * C)) (a : A) :
  fst p = inr a -> p = (inr a, (fst (snd p), snd (snd p))).
Proof. destruct p as [x [b c]]. cbn. intros ->. reflexivity. Qed.

Lemma nth_error_oks {A} (sums : list A) (last : result A) (k : nat) (e : exn) :
  nth_error (map inr sums ++ [last]) k = Some (inl e) ->
  k = length sums /\ last = inl e.
Proof.
  intros H. destruct (Nat.lt_trichotomy k (length sums)) as [Hlt|[->|Hgt]].
  - rewrite nth_error_app1, nth_error_map in H by (rewrite length_map; exact Hlt).
    destruct (nth_error sums k); discriminate H.
  - rewrite nth_error_app2, length_map, Nat.sub_diag in H by (rewrite length_map; lia).
    injection H as ->. auto.
  - rewrite nth_error_app2, length_map in H by (rewrite length_map; lia).
    destruct (k - length sums) as [|[|n]] eqn:Hk; [lia|discriminate H|discriminate H].
Qed.

Lemma nth_error_lt {A} (l : list A) (k : nat) (x : A) :
  nth_error l k = Some x -> k < length l.
Proof. intros H. apply nth_error_Some. rewrite H. discriminate. Qed.

Lemma responses_of_run (model_name language_code : str) (texts sums : list str)
  (req : completion_request) (last : result str) :
  length sums = length texts ->
  responses (segment_events model_name language_code 0 texts sums
             ++ [EvRequest req; EvResponse last])
  = map inr sums ++ [last].
Proof.
  intros Hl. rewrite responses_app, responses_segment_events by exact Hl. reflexivity.
Qed.

Lemma requests_of_run (model_name language_code : str) (texts sums : list str)
  (req : completion_request) (last : result str) :
  length sums = length texts ->
  requests (segment_events model_name language_code 0 texts sums
            ++ [EvRequest req; EvResponse last])
  = segment_requests model_name language_code 0 texts ++ [req].
Proof.
  intros Hl. rewrite requests_app, requests_segment_events by exact Hl. reflexivity.
Qed.

(** C3. If the completion call for section k (k < N) fails, the requests
    issued are exactly those of the sections 0..k, so none for the sections
    k+1..N-1 and none for the synthesis, and the pipeline raises an
    HTTPException of status 500, not a summary. *)
Theorem section_failure_aborts (E : Collaborators)
  (transcript language_code model_name mode : str) (w w' : World)
  (r : result str) (tr : list event) (k : nat) (e : exn) :
  summarize_with_groq transcript language_code model_name mode (w, []) = (r, (w', tr)) ->
  k < length (split_text 7000 1000 transcript) ->
  nth_error (responses tr) k = Some (inl e) ->
  requests tr
  = segment_requests model_name language_code 0
      (firstn (k + 1) (split_text 7000 1000 transcript))
  /\ r = inl (HTTPException 500 (lit "Error with Groq API: " ++ str_exn e)).
Proof.
  intros Hrun Hk Hfail. apply summarize_with_groq_run in Hrun.
  destruct Hrun as [sums s Hl -> ->|sums e' Hl -> ->|k' sums e' t Hn Hl -> ->].
  - rewrite responses_of_run in Hfail by exact Hl.
    apply nth_error_oks in Hfail as [-> [=]].
  - rewrite responses_of_run in Hfail by exact Hl.
    apply nth_error_oks in Hfail as [-> _]. lia.
  - assert (Hl' : length sums = length (firstn k' (split_text 7000 1000 transcript))).
    { apply nth_error_lt in Hn. rewrite length_firstn. lia. }
    rewrite responses_of_run in Hfail by exact Hl'.
    apply nth_error_oks in Hfail as [-> [= ->]].
    rewrite requests_of_run by exact Hl'. rewrite Hl.
    split; [|reflexivity].
    symmetry. apply (segment_requests_snoc model_name language_code _ _ 0 Hn).
Qed.

Lemma section_failure_aborts_witness :
  let run := @summarize_with_groq (Demo.service 1) Demo.transcript (lit "en")
               default_model_name default_mode (0, []) in
  requests (snd (snd run))
  = segment_requests default_model_name (lit "en") 0
      (firstn (1 + 1) (@split_text (Demo.service 1) 7000 1000 Demo.transcript))
  /\ fst run
     = inl (HTTPException 500
              (lit "Error with Groq API: "
               ++ @str_exn (Demo.service 1) (OtherException (lit "rate limit")))).
Proof.
  intros run.
  pose proof (@section_failure_aborts (Demo.service 1) Demo.transcript (lit "en")
                default_model_name default_mode 0 (fst (snd run)) (fst run)
                (snd (snd run)) 1 (OtherException (lit "rate limit"))) as H.
  refine (H _ _ _); clear H.
  - apply run_decompose.
  - apply Nat.ltb_lt. vm_compute. reflexivity.
  - vm_compute. reflexivity.
Defined.

(** C4. If the response to the synthesis request, the one that follows the
    N section responses, is a failure, then all N section calls had succeeded
    and the pipeline raises an HTTPException of status 500 that carries the
    text of the failure: no intermediate summary is returned. *)
Theorem synthesis_failure_aborts (E : Collaborators)
  (transcript language_code model_name mode : str) (w w' : World)
  (r : result str) (tr : list event) (e : exn) :
  summarize_with_groq transcript language_code model_name mode (w, []) = (r, (w', tr)) ->
  nth_error (responses tr) (length (split_text 7000 1000 transcript)) = Some (inl e) ->
  r = inl (HTTPException 500 (lit "Error with Groq API: " ++ str_exn e))
  /\ exists sums,
       length sums = length (split_text 7000 1000 transcript)
       /\ responses tr = map inr sums ++ [inl e]
       /\ requests tr
          = segment_requests model_name language_code 0 (split_text 7000 1000 transcript)
            ++ [synthesis_request model_name language_code sums].
Proof.
  intros Hrun Hfail. apply summarize_with_groq_run in Hrun.
  destruct Hrun as [sums s Hl -> ->|sums e' Hl -> ->|k' sums e' t Hn Hl -> ->].
  - rewrite responses_of_run in Hfail by exact Hl.
    apply nth_error_oks in Hfail as [_ [=]].
  - rewrite responses_of_run in Hfail by exact Hl.
    apply nth_error_oks in Hfail as [_ [= ->]].
    split; [reflexivity|]. exists sums.
    rewrite responses_of_run, requests_of_run by exact Hl. auto.
  - assert (Hl' : length sums = length (firstn k' (split_text 7000 1000 transcript))).
    { apply nth_error_lt in Hn. rewrite length_firstn. lia. }
    rewrite responses_of_run in Hfail by exact Hl'.
    apply nth_error_oks in Hfail as [Hk _]. apply nth_error_lt in Hn. lia.
Qed.

Lemma synthesis_failure_aborts_witness :
  let run := @summarize_with_groq (Demo.service 3) Demo.transcript (lit "en")
               default_model_name default_mode (0, []) in
  fst run
  = inl (HTTPException 500
           (lit "Error with Groq API: "
            ++ @str_exn (Demo.service 3) (OtherException (lit "rate limit"))))
  /\ exists sums,
       length sums = length (@split_text (Demo.service 3) 7000 1000 Demo.transcript)
       /\ responses (snd (snd run))
          = map inr sums ++ [inl (OtherException (lit "rate limit"))]
       /\ requests (snd (snd run))
          = segment_requests default_model_name (lit "en") 0
              (@split_text (Demo.service 3) 7000 1000 Demo.transcript)
            ++ [synthesis_request default_model_name (lit "en") sums].
Proof.
  intros run.
  pose proof (@synthesis_failure_aborts (Demo.service 3) Demo.transcript (lit "en")
                default_model_name default_mode 0 (fst (snd run)) (fst run)
                (snd (snd run)) (OtherException (lit "rate limit"))) as H.
  refine (H _ _); clear H.
  - apply run_decompose.
  - vm_compute. reflexivity.
Defined.

(** C5. In a successful run over N sections the trace is: request 0,
    response 0, request 1, response 1, ..., request N-1, response N-1, then
    the one synthesis request and its response, whose content is the string
    returned. *)
Theorem successful_run_is_sequential (E : Collaborators)
  (transcript language_code model_name mode : str) (w w' : World)
  (s : str) (tr : list event) :
  summarize_with_groq transcript language_code model_name mode (w, []) = (inr s, (w', tr)) ->
  exists sums,
    length sums = length (split_text 7000 1000 transcript)
    /\ tr = segment_events model_name language_code 0 (split_text 7000 1000 transcript) sums
            ++ [EvRequest (synthesis_request model_name language_code sums);
                EvResponse (inr s)]
    /\ requests tr
       = segment_requests model_name language_code 0 (split_text 7000 1000 transcript)
         ++ [synthesis_request model_name language_code sums].
Proof.
  intros Hrun. apply summarize_with_groq_run in Hrun.
  destruct Hrun as [sums s' Hl [= ->] ->|sums e' Hl [=] _|k' sums e' t Hn Hl [=] _].
  exists sums. rewrite requests_of_run by exact Hl. auto.
Qed.

Lemma successful_run_is_sequential_witness :
  let run := @summarize_with_groq (Demo.service 7) Demo.transcript (lit "en")
               default_model_name default_mode (0, []) in
  exists sums,
    length sums = length (@split_text (Demo.service 7) 7000 1000 Demo.transcript)
    /\ snd (snd run)
       = segment_events default_model_name (lit "en") 0
           (@split_text (Demo.service 7) 7000 1000 Demo.transcript) sums
         ++ [EvRequest (synthesis_request default_model_name (lit "en") sums);
             EvResponse (inr (lit "summary 3"))]
    /\ requests (snd (snd run))
       = segment_requests default_model_name (lit "en") 0
           (@split_text (Demo.service 7) 7000 1000 Demo.transcript)
         ++ [synthesis_request default_model_name (lit "en") sums].
Proof.
  intros run.
  pose proof (@successful_run_is_sequential (Demo.service 7) Demo.transcript (lit "en")
                default_model_name default_mode 0 (fst (snd run)) (lit "summary 3")
                (snd (snd run))) as H.
  refine (H _); clear H.
  refine (@run_decompose_ok _ _ _ run (lit "summary 3") _).
  vm_compute. reflexivity.
Defined.

(** C7. The Chunker gives no Segment for the empty transcript; the pipeline
    then issues no section request, only the synthesis request over no
    intermediate summary, and returns the content of its response. *)
Theorem empty_transcript_run (E : Collaborators) (language_code model_name mode : str)
  (w w' : @World E) (s : str) :
  @chat_completions_create E (synthesis_request model_name language_code []) w
  = (inr s, w') ->
  Chunker.split_text 7000 1000 [] = []
  /\ @summarize_with_groq (with_chunker E) [] language_code model_name mode (w, [])
     = (inr s, (w', [EvRequest (synthesis_request model_name language_code []);
                     EvResponse (inr s)])).
Proof.
  intros Hc. split; [reflexivity|].
  unfold summarize_with_groq, bind, try_except, complete. cbn.
  rewrite Hc. reflexivity.
Qed.

Lemma empty_transcript_run_witness :
  Chunker.split_text 7000 1000 [] = []
  /\ @summarize_with_groq (with_chunker (Demo.service 5)) [] (lit "en")
       default_model_name default_mode (0, [])
     = (inr (lit "summary 0"),
        (1, [EvRequest (synthesis_request default_model_name (lit "en") []);
             EvResponse (inr (lit "summary 0"))])).
Proof.
  apply (@empty_transcript_run (Demo.service 5) (lit "en") default_model_name
           default_mode 0 1 (lit "summary 0")).
  reflexivity.
Defined.

(** C9. Two requests that differ in the field [mode] only have the same
    run: the same log lines, the same completion requests and responses in
    the same order, the same final state and the same result. *)
Theorem mode_is_ignored (E : Collaborators) (request : SummarizationRequest)
  (mode1 mode2 : str) (st : state) :
  summarize_video (set_mode mode1 request) st
  = summarize_video (set_mode mode2 request) st
  /\ forall transcript language_code model_name,
       summarize_with_groq transcript language_code model_name mode1 st
       = summarize_with_groq transcript language_code model_name mode2 st.
Proof. split; reflexivity. Qed.

Lemma get_transcript_unparseable (E : Collaborators) (youtube_url : str) (e : exn)
  (st : state) :
  extract_video_id youtube_url = inl e ->
  get_transcript youtube_url st = (inl (HTTPException 400 (str_exn e)), st).
Proof.
  intros He. unfold get_transcript, try_except, bind. rewrite He. reflexivity.
Qed.

Lemma summarize_video_unparseable (E : Collaborators) (request : SummarizationRequest)
  (e : exn) (w : World) (tr : list event) :
  extract_video_id (youtube_url request) = inl e ->
  summarize_video request (w, tr)
  = (inl (HTTPException 500 (lit "Internal Server Error")),
     (w, (tr ++ [EvLog INFO (lit "User '" ++ user_email request
                             ++ lit "' requested summary for " ++ youtube_url request)])
         ++ [EvLog ERROR (lit "Error summarizing video: "
                          ++ str_HTTPException 400 (str_exn e))])).
Proof.
  intros He. unfold summarize_video, logger_info, try_except.
  unfold bind at 1. cbn [emit]. unfold bind at 1.
  rewrite (@get_transcript_unparseable E _ _ _ He). reflexivity.
Qed.

Lemma extract_not_a_url :
  extract_video_id (lit "not a url")
  = inl (ValueError (lit "Could not extract video ID from URL")).
Proof. vm_compute. reflexivity. Qed.

(** C2. On the reference "not a url" [get_transcript] raises an
    HTTPException of status 400 with the message of the extractor, and the
    route replaces it: the caller receives status 500 with the detail
    "Internal Server Error". *)
Theorem unparseable_reference_gets_500 (E : Collaborators) (w : World) :
  get_transcript (lit "not a url") (w, [])
  = (inl (HTTPException 400 (lit "Could not extract video ID from URL")), (w, []))
  /\ fst (summarize_video (Demo.request (lit "not a url")) (w, []))
     = inl (HTTPException 500 (lit "Internal Server Error")).
Proof.
  split.
  - exact (@get_transcript_unparseable E (lit "not a url") _ (w, []) extract_not_a_url).
  - rewrite (@summarize_video_unparseable E (Demo.request (lit "not a url")) _ w []
               extract_not_a_url).
    reflexivity.
Qed.

(** ** The patterns, read directly *)

Module ScanFacts.

Import Scan.

Lemma take_class_firstn (p : char -> bool) : forall n s w,
  take_class p n s = Some w ->
  w = firstn n s /\ length w = n /\ Forall (fun c => p c = true) w.
Proof.
  induction n as [|n IH]; intros s w H; cbn [take_class] in H.
  - injection H as <-. auto.
  - destruct s as [|c s]; [discriminate|].
    destruct (p c) eqn:Hc; [|discriminate].
    destruct (take_class p n s) as [w'|] eqn:Hw; [|discriminate].
    injection H as <-. apply IH in Hw as (-> & Hl & Hf).
    cbn [firstn length]. auto.
Qed.

Lemma take_class_all (p : char -> bool) : forall w rest,
  Forall (fun c => p c = true) w -> take_class p (length w) (w ++ rest) = Some w.
Proof.
  induction w as [|c w IH]; intros rest Hw; [reflexivity|].
  inversion Hw as [|? ? Hc Hw']; subst. cbn. rewrite Hc, IH by exact Hw'. reflexivity.
Qed.

Section Matcher.

Context {R : Type}.

Lemma rmatch_Lit : forall l i s g (k : @cont R),
  rmatch (Lit l) i s g k
  = if starts_with l s then k (i + length l) (skipn (length l) s) g else None.
Proof.
  induction l as [|c l IH]; intros i s g k.
  - cbn. rewrite Nat.add_0_r. reflexivity.
  - destruct l as [|c' l].
    + cbn. destruct s as [|d s]; [reflexivity|].
      rewrite Nat.add_1_r, andb_true_r. reflexivity.
    + change (Lit (c :: c' :: l)) with (Seq (Chr c) (Lit (c' :: l))).
      remember (c' :: l) as l' eqn:Hl'.
      cbn [rmatch]. destruct s as [|d s]; [reflexivity|].
      cbn [starts_with length skipn]. destruct (N.eqb d c); [|reflexivity].
      rewrite IH. cbn [andb]. rewrite Nat.add_succ_r. reflexivity.
Qed.

Lemma rmatch_Rep_Cls (p : char -> bool) : forall n i s g (k : @cont R),
  rmatch (Rep n (Cls p)) i s g k
  = match take_class p n s with
    | Some _ => k (i + n) (skipn n s) g
    | None => None
    end.
Proof.
  induction n as [|n IH]; intros i s g k.
  - cbn. rewrite Nat.add_0_r. reflexivity.
  - cbn [rmatch take_class]. destruct s as [|c s]; [reflexivity|].
    destruct (p c); [|reflexivity].
    change (rmatch (Rep n (Cls p)) (S i) s g k
            = match match take_class p n s with
                    | Some w => Some (c :: w)
                    | None => None
                    end with
              | Some _ => k (i + S n) (skipn (S n) (c :: s)) g
              | None => None
              end).
    rewrite IH. destruct (take_class p n s); [|reflexivity].
    cbn [skipn]. rewrite Nat.add_succ_r. reflexivity.
Qed.

Lemma rmatch_id11 (i : nat) (s : str) (g : option str) (k : @cont R) :
  rmatch id11 i s g k
  = match take_class id_char 11 s with
    | Some id => k (i + 11) (skipn 11 s) (Some id)
    | None => None
    end.
Proof.
  unfold id11. cbn [rmatch].
  change (rmatch (Rep 11 (Cls id_char)) i s g
            (fun j s' _ => k j s' (Some (firstn (j - i) s)))
          = match take_class id_char 11 s with
            | Some id => k (i + 11) (skipn 11 s) (Some id)
            | None => None
            end).
  rewrite rmatch_Rep_Cls. destruct (take_class id_char 11 s) as [id|] eqn:Hid;
    [|reflexivity].
  apply take_class_firstn in Hid as (-> & _ & _).
  replace (i + 11 - i) with 11 by lia. reflexivity.
Qed.

End Matcher.

Lemma dot_star_accepts : forall s i g,
  dot_star i s g (fun _ _ g' => Some (MatchObj g')) = Some (MatchObj g).
Proof.
  induction s as [|c s IH]; intros i g; cbn [dot_star]; [reflexivity|].
  destruct (is_newline c); [reflexivity|]. rewrite IH. reflexivity.
Qed.

Lemma rmatch_first_pattern (i : nat) (s : str) :
  rmatch (Seq (Alt (Lit (lit "v=")) (Lit (lit "/"))) (Seq id11 DotStar)) i s None final
  = match id_after (lit "v=") s with
    | Some id => Some (MatchObj (Some id))
    | None =>
        match id_after (lit "/") s with
        | Some id => Some (MatchObj (Some id))
        | None => None
        end
    end.
Proof.
  cbn [rmatch]. rewrite !rmatch_Lit. unfold id_after.
  assert (Hk : forall j t,
             rmatch id11 j t None (fun j' s' g' => dot_star j' s' g' final)
             = match take_class id_char 11 t with
               | Some id => Some (MatchObj (Some id))
               | None => None
               end).
  { intros j t. rewrite rmatch_id11. destruct (take_class id_char 11 t); [|reflexivity].
    apply dot_star_accepts. }
  change (fun j s' g' => rmatch id11 j s' g'
                           (fun j' s'' g'' => rmatch DotStar j' s'' g'' final))
    with (fun j s' g' => rmatch id11 j s' g' (fun j' s'' g'' => dot_star j' s'' g'' final)).
  destruct (starts_with (lit "v=") s).
  - rewrite Hk. destruct (take_class id_char 11 (skipn (length (lit "v=")) s));
      [reflexivity|].
    destruct (starts_with (lit "/") s); [rewrite Hk|]; reflexivity.
  - destruct (starts_with (lit "/") s); [rewrite Hk|]; reflexivity.
Qed.

Lemma search_first_pattern : forall s i,
  search_from (Seq (Alt (Lit (lit "v=")) (Lit (lit "/"))) (Seq id11 DotStar)) i s
  = match leftmost_id s with
    | Some id => Some (MatchObj (Some id))
    | None => None
    end.
Proof.
  induction s as [|c s IH]; intros i; cbn [search_from leftmost_id];
    fold final; rewrite rmatch_first_pattern.
  - destruct (id_after (lit "v=") []); [reflexivity|].
    destruct (id_after (lit "/") []); reflexivity.
  - destruct (id_after (lit "v=") (c :: s)); [reflexivity|].
    destruct (id_after (lit "/") (c :: s)); [reflexivity|]. apply IH.
Qed.

Lemma rmatch_marker_pattern (l : str) (i : nat) (s : str) :
  rmatch (Seq (Lit l) id11) i s None final
  = match id_after l s with
    | Some id => Some (MatchObj (Some id))
    | None => None
    end.
Proof.
  cbn [rmatch]. rewrite rmatch_Lit. unfold id_after.
  destruct (starts_with l s); [|reflexivity]. apply rmatch_id11.
Qed.

Lemma starts_with_app (a b : str) : forall s,
  starts_with (a ++ b) s = starts_with a s && starts_with b (skipn (length a) s).
Proof.
  induction a as [|c a IH]; intros s; [reflexivity|].
  destruct s as [|d s]; [reflexivity|]. cbn. rewrite IH, andb_assoc. reflexivity.
Qed.

Lemma leftmost_id_skipn : forall n s,
  leftmost_id (skipn n s) <> None -> leftmost_id s <> None.
Proof.
  induction n as [|n IH]; intros s H; [exact H|].
  destruct s as [|c s]; [exact H|]. cbn [skipn] in H. apply IH in H.
  cbn [leftmost_id]. destruct (id_after (lit "v=") (c :: s)); [discriminate|].
  destruct (id_after (lit "/") (c :: s)); [discriminate|exact H].
Qed.

(** A pattern "marker/" followed by the identifier matches nowhere when the
    first pattern matches nowhere. *)
Lemma search_marker_pattern (l0 : str) : forall s i,
  leftmost_id s = None ->
  search_from (Seq (Lit (l0 ++ lit "/")) id11) i s = None.
Proof.
  assert (Hstep : forall s, leftmost_id s = None -> id_after (l0 ++ lit "/") s = None).
  { intros s Hs. unfold id_after. rewrite starts_with_app, length_app.
    destruct (starts_with l0 s); [|reflexivity]. cbn [andb].
    destruct (starts_with (lit "/") (skipn (length l0) s)) eqn:Hsl; [|reflexivity].
    destruct (take_class id_char 11 (skipn (length l0 + length (lit "/")) s)) eqn:Hid;
      [|reflexivity].
    exfalso. apply (@leftmost_id_skipn (length l0) s); [|exact Hs].
    destruct (skipn (length l0) s) as [|d t] eqn:Ht; [discriminate Hsl|].
    cbn [leftmost_id]. destruct (id_after (lit "v=") (d :: t)); [discriminate|].
    unfold id_after. rewrite Hsl.
    rewrite Nat.add_comm, <- skipn_skipn, Ht in Hid. rewrite Hid. discriminate. }
  induction s as [|c s IH]; intros i Hs; cbn [search_from]; fold final;
    rewrite rmatch_marker_pattern, (Hstep _ Hs); [reflexivity|].
  apply IH. cbn [leftmost_id] in Hs.
  destruct (id_after (lit "v=") (c :: s)); [discriminate|].
  destruct (id_after (lit "/") (c :: s)); [discriminate|exact Hs].
Qed.

Lemma search_from_bol_later (r : regex) : forall s i,
  search_from (Seq Bol r) (S i) s = None.
Proof.
  induction s as [|c s IH]; intros i; cbn [search_from rmatch Nat.eqb]; auto.
Qed.

Lemma search_bare_pattern (s : str) :
  search (Seq Bol (Seq id11 Eol)) s
  = match bare_id s with
    | Some id => Some (MatchObj (Some id))
    | None => None
    end.
Proof.
  assert (H0 : rmatch (Seq Bol (Seq id11 Eol)) 0 s None final
               = match bare_id s with
                 | Some id => Some (MatchObj (Some id))
                 | None => None
                 end).
  { cbn [rmatch Nat.eqb]. rewrite rmatch_id11. unfold bare_id.
    destruct (take_class id_char 11 s) as [id|]; [|reflexivity].
    cbn [rmatch]. destruct (skipn 11 s) as [|c [|c' t]]; try reflexivity.
    destruct (is_newline c); reflexivity. }
  unfold search. destruct s as [|c s]; cbn [search_from]; fold final; rewrite H0.
  - destruct (bare_id []); reflexivity.
  - destruct (bare_id (c :: s)); [reflexivity|]. apply search_from_bol_later.
Qed.

Lemma first_group_scan (s : str) :
  first_group patterns s = option_map Some (video_id_of s).
Proof.
  unfold patterns, video_id_of. cbn [first_group]. unfold search at 1.
  rewrite search_first_pattern.
  destruct (leftmost_id s) as [id|] eqn:Hl; [reflexivity|].
  change (lit "embed/") with (lit "embed" ++ lit "/").
  change (lit "youtu.be/") with (lit "youtu.be" ++ lit "/").
  change (lit "shorts/") with (lit "shorts" ++ lit "/").
  unfold search at 1.
  rewrite (search_marker_pattern (lit "embed") s 0 Hl).
  unfold search at 1.
  rewrite (search_marker_pattern (lit "youtu.be") s 0 Hl).
  unfold search at 1.
  rewrite (search_marker_pattern (lit "shorts") s 0 Hl).
  rewrite search_bare_pattern. destruct (bare_id s); reflexivity.
Qed.

(** *** White space and identifier characters *)

Lemma id_char_not_space (c : char) : id_char c = true -> is_space c = false.
Proof.
  intros H. apply ExtractFacts.id_char_alphabet in H.
  assert (Hall : forallb (fun a => negb (is_space a)) id_alphabet = true)
    by (vm_compute; reflexivity).
  rewrite forallb_forall in Hall. apply Hall in H.
  destruct (is_space c); [discriminate H|reflexivity].
Qed.

Lemma lstrip_head : forall s c t, lstrip s = c :: t -> is_space c = false.
Proof.
  induction s as [|d s IH]; intros c t H; cbn [lstrip] in H; [discriminate|].
  destruct (is_space d) eqn:Hd; [eauto|]. injection H as <- _. exact Hd.
Qed.

Lemma lstrip_keep (c : char) (t : str) : is_space c = false -> lstrip (c :: t) = c :: t.
Proof. intros H. cbn. rewrite H. reflexivity. Qed.

Lemma strip_last (s pre : str) (c : char) : strip s = pre ++ [c] -> is_space c = false.
Proof.
  unfold strip, rstrip. intros H.
  apply (f_equal (@rev char)) in H. rewrite rev_involutive, rev_app_distr in H.
  cbn in H. eapply lstrip_head, H.
Qed.

Lemma rstrip_solid (x y : str) : ends_solid x -> rstrip (x ++ y) = x ++ rstrip y.
Proof.
  intros (x' & c & -> & Hc). unfold rstrip.
  rewrite rev_app_distr, ExtractFacts.lstrip_app.
  destruct (lstrip (rev y)) as [|d l] eqn:Hy.
  - rewrite rev_app_distr. cbn [rev app]. rewrite lstrip_keep by exact Hc.
    cbn [rev]. rewrite rev_involutive, app_nil_r. reflexivity.
  - rewrite rev_app_distr, rev_involutive. reflexivity.
Qed.

Lemma ends_solid_app (a x : str) : ends_solid x -> ends_solid (a ++ x).
Proof.
  intros (x' & c & -> & Hc). exists (a ++ x'), c. rewrite app_assoc. auto.
Qed.

(** White space is stripped around a solid core, never inside it. *)
Lemma strip_around (pre m rest : str) (c : char) (t : str) :
  m = c :: t -> is_space c = false -> ends_solid m ->
  strip (pre ++ m ++ rest) = lstrip pre ++ m ++ rstrip rest.
Proof.
  intros -> Hc Hm. unfold strip. rewrite ExtractFacts.lstrip_app.
  assert (Hl : lstrip ((c :: t) ++ rest) = (c :: t) ++ rest)
    by (cbn [app]; apply lstrip_keep, Hc).
  destruct (lstrip pre) as [|d l] eqn:Hp.
  - rewrite Hl. cbn [app]. apply (rstrip_solid rest Hm).
  - rewrite app_assoc, rstrip_solid by (apply ends_solid_app, Hm).
    rewrite <- app_assoc. reflexivity.
Qed.

Lemma strip_solid (m : str) (c : char) (t : str) :
  m = c :: t -> is_space c = false -> ends_solid m -> strip m = m.
Proof.
  intros Hm Hc Hs.
  pose proof (@strip_around [] m [] c t Hm Hc Hs) as H.
  rewrite app_nil_r in H. cbn [app lstrip] in H. rewrite H.
  unfold rstrip. cbn. apply app_nil_r.
Qed.

Lemma ids_solid (id : str) :
  id <> [] -> Forall (fun c => id_char c = true) id ->
  (exists c t, id = c :: t /\ is_space c = false) /\ ends_solid id.
Proof.
  intros Hne Hid. split.
  - destruct id as [|c t]; [congruence|]. exists c, t. split; [reflexivity|].
    inversion Hid; subst. apply id_char_not_space. assumption.
  - destruct (exists_last Hne) as (x' & c & ->). exists x', c. split; [reflexivity|].
    apply Forall_app in Hid as [_ Hc]. inversion Hc; subst.
    apply id_char_not_space. assumption.
Qed.

(** *** Bare identifiers *)

Lemma take_class_forallb (p : char -> bool) : forall s,
  take_class p (length s) s = if forallb p s then Some s else None.
Proof.
  induction s as [|c s IH]; [reflexivity|]. cbn.
  destruct (p c); [|reflexivity]. rewrite IH. destruct (forallb p s); reflexivity.
Qed.

Lemma take_class_short (p : char -> bool) : forall n s,
  length s < n -> take_class p n s = None.
Proof.
  induction n as [|n IH]; intros s H; [lia|]. destruct s as [|c s]; [reflexivity|].
  cbn in *. destruct (p c); [|reflexivity]. rewrite IH by lia. reflexivity.
Qed.

(** On a stripped reference the last pattern asks for exactly 11
    identifier characters. *)
Lemma bare_id_stripped (s : str) :
  bare_id (strip s)
  = if Nat.eqb (length (strip s)) 11 && forallb id_char (strip s)
    then Some (strip s) else None.
Proof.
  unfold bare_id. remember (strip s) as t eqn:Ht.
  destruct (Nat.lt_trichotomy (length t) 11) as [Hlt|[Heq|Hgt]].
  - rewrite take_class_short by exact Hlt.
    destruct (Nat.eqb_spec (length t) 11); [lia|reflexivity].
  - rewrite <- Heq at 1. rewrite take_class_forallb, skipn_all2 by lia.
    rewrite Heq. cbn [Nat.eqb andb]. destruct (forallb id_char t); reflexivity.
  - destruct (Nat.eqb_spec (length t) 11); [lia|]. cbn [andb].
    destruct (take_class id_char 11 t) as [id|]; [|reflexivity].
    destruct (skipn 11 t) as [|c [|c' r]] eqn:Hs; [|  |reflexivity].
    + apply (f_equal (@length char)) in Hs. rewrite length_skipn in Hs. cbn in Hs. lia.
    + assert (Hc : is_space c = false).
      { apply (@strip_last s (firstn 11 t) c).
        rewrite <- Ht, <- Hs. symmetry. apply firstn_skipn. }
      destruct (is_newline c) eqn:Hn; [|reflexivity].
      unfold is_newline in Hn. apply N.eqb_eq in Hn. subst c. discriminate Hc.
Qed.

Lemma id_after_ids (c : char) (t : str) :
  Forall (fun a => id_char a = true) (c :: t) ->
  id_after (lit "v=") (c :: t) = None /\ id_after (lit "/") (c :: t) = None.
Proof.
  intros Hw. inversion Hw as [|? ? Hc Ht]; subst. unfold id_after.
  change (lit "v=") with [118%N; 61%N]. change (lit "/") with [47%N].
  cbn [starts_with]. split.
  - destruct t as [|d t]; [rewrite andb_false_r; reflexivity|].
    inversion Ht as [|? ? Hd _]; subst.
    destruct (N.eqb_spec d 61) as [->|_]; [discriminate Hd|].
    rewrite andb_false_l, andb_false_r. reflexivity.
  - destruct (N.eqb_spec c 47) as [->|_]; [discriminate Hc|]. reflexivity.
Qed.

Lemma leftmost_id_ids : forall w,
  Forall (fun c => id_char c = true) w -> leftmost_id w = None.
Proof.
  induction w as [|c w IH]; intros Hw; [reflexivity|].
  destruct (id_after_ids Hw) as [H1 H2]. cbn [leftmost_id]. rewrite H1, H2.
  inversion Hw; subst. auto.
Qed.

(** *** What follows a marker *)

Lemma starts_with_split : forall m t, starts_with m t = true -> t = m ++ skipn (length m) t.
Proof.
  induction m as [|c m IH]; intros t H; [reflexivity|].
  destruct t as [|d t]; [discriminate|]. cbn in H.
  apply andb_true_iff in H as [Hd H]. apply N.eqb_eq in Hd. subst d.
  cbn. f_equal. apply IH, H.
Qed.

Lemma starts_with_refl : forall m t, starts_with m (m ++ t) = true.
Proof.
  induction m as [|c m IH]; intros t; [reflexivity|]. cbn. rewrite N.eqb_refl. apply IH.
Qed.

Lemma id_after_infix (m t id : str) :
  id_after m t = Some id -> exists b, t = m ++ id ++ b.
Proof.
  unfold id_after. destruct (starts_with m t) eqn:Hm; [|discriminate].
  intros H. apply take_class_firstn in H as (-> & _ & _).
  exists (skipn 11 (skipn (length m) t)). rewrite firstn_skipn.
  apply starts_with_split, Hm.
Qed.

Lemma leftmost_id_infix : forall t id,
  leftmost_id t = Some id -> exists a b, t = a ++ id ++ b.
Proof.
  induction t as [|c t IH]; intros id H; cbn [leftmost_id] in H.
  - destruct (id_after (lit "v=") []) eqn:H1; [discriminate H1|].
    destruct (id_after (lit "/") []) eqn:H2; [discriminate H2|discriminate H].
  - destruct (id_after (lit "v=") (c :: t)) as [w|] eqn:H1.
    { injection H as ->. apply id_after_infix in H1 as (b & ->). eexists. eauto. }
    destruct (id_after (lit "/") (c :: t)) as [w|] eqn:H2.
    { injection H as ->. apply id_after_infix in H2 as (b & ->). eexists. eauto. }
    apply IH in H as (a & b & ->). exists (c :: a), b. reflexivity.
Qed.

Lemma id_after_here (m id rest : str) :
  length id = 11 -> Forall (fun c => id_char c = true) id ->
  id_after m (m ++ id ++ rest) = Some id.
Proof.
  intros Hl Hid. unfold id_after. rewrite starts_with_refl.
  rewrite skipn_app, skipn_all, Nat.sub_diag. cbn [app skipn].
  rewrite <- Hl. apply take_class_all, Hid.
Qed.

Lemma take_class_app (p : char -> bool) : forall n x y w,
  take_class p n (x ++ y) = Some w ->
  take_class p n x = Some w \/ Forall (fun c => p c = true) x.
Proof.
  induction n as [|n IH]; intros x y w H; [left; exact H|].
  destruct x as [|c x]; [right; constructor|].
  cbn [app take_class] in *. destruct (p c) eqn:Hc; [|discriminate].
  destruct (take_class p n (x ++ y)) as [w'|] eqn:Hw; [|discriminate].
  apply IH in Hw as [Hw|Hw]; [left; rewrite Hw; exact H|right; auto].
Qed.

Lemma take_class_extend (p : char -> bool) (n : nat) (q y : str) (e : char) :
  p e = false -> take_class p n (q ++ [e]) = None ->
  take_class p n ((q ++ [e]) ++ y) = None.
Proof.
  intros He Hx. destruct (take_class p n ((q ++ [e]) ++ y)) as [w|] eqn:H; [|reflexivity].
  apply take_class_app in H as [H|H]; [congruence|].
  apply Forall_app in H as [_ H]. inversion H; subst. congruence.
Qed.

Lemma tail_keeps_last (a e : char) (x1 q : str) :
  a :: x1 = q ++ [e] -> x1 <> [] -> exists q', x1 = q' ++ [e].
Proof.
  destruct q as [|a' q]; cbn; intros [= -> H] Hne; [congruence|eauto].
Qed.

(** A marker that gives no identifier in [x] gives none when [x] goes on,
    as soon as [x] ends with a character that no identifier has. *)
Lemma id_after_extend (m0 x y q : str) (e : char) :
  m0 = lit "v=" \/ m0 = lit "/" ->
  x = q ++ [e] -> id_char e = false -> 2 <= length x -> x <> lit "v=" ->
  id_after m0 x = None -> id_after m0 (x ++ y) = None.
Proof.
  intros Hm Hx He Hlen Hne H.
  destruct x as [|a [|b x2]]; cbn [length] in Hlen; try lia.
  unfold id_after in *. destruct Hm as [-> | ->].
  - change (lit "v=") with [118%N; 61%N] in *. cbn [starts_with app length skipn] in *.
    destruct (N.eqb_spec a 118) as [->|]; [|reflexivity].
    destruct (N.eqb_spec b 61) as [->|]; [|reflexivity]. cbn [andb] in *.
    destruct x2 as [|c x3]; [exfalso; apply Hne; reflexivity|].
    destruct (@tail_keeps_last 118%N e (61%N :: c :: x3) q Hx) as (q1 & H1);
      [discriminate|].
    destruct (@tail_keeps_last 61%N e (c :: x3) q1 H1) as (q2 & H2); [discriminate|].
    change (c :: x3 ++ y) with ((c :: x3) ++ y).
    rewrite H2 in *. apply take_class_extend; assumption.
  - change (lit "/") with [47%N] in *. cbn [starts_with app length skipn] in *.
    destruct (N.eqb_spec a 47) as [->|]; [|reflexivity]. cbn [andb] in *.
    destruct (@tail_keeps_last 47%N e (b :: x2) q Hx) as (q1 & H1); [discriminate|].
    change (b :: x2 ++ y) with ((b :: x2) ++ y).
    rewrite H1 in *. apply take_class_extend; assumption.
Qed.

Lemma leftmost_id_suffix (a t : str) : leftmost_id (a ++ t) = None -> leftmost_id t = None.
Proof.
  intros H. destruct (leftmost_id t) eqn:Ht; [|reflexivity].
  exfalso. apply (@leftmost_id_skipn (length a) (a ++ t)); [|exact H].
  rewrite skipn_app, skipn_all, Nat.sub_diag. cbn [app skipn]. rewrite Ht. discriminate.
Qed.

Lemma leftmost_id_behind (marker id rest : str) :
  marker = lit "v=" \/ marker = lit "/" ->
  length id = 11 -> Forall (fun c => id_char c = true) id ->
  forall pre,
    leftmost_id (pre ++ marker) = None ->
    leftmost_id (pre ++ marker ++ id ++ rest) = Some id.
Proof.
  intros Hm Hl Hid.
  assert (Hlast : exists m' e, marker = m' ++ [e] /\ id_char e = false
                               /\ 1 <= length marker).
  { destruct Hm as [-> | ->].
    - exists [118%N], 61%N. repeat split. vm_compute. lia.
    - exists [], 47%N. repeat split. vm_compute. lia. }
  destruct Hlast as (m' & e & Hme & He & Hlen).
  induction pre as [|c pre IH]; intros Hnone.
  - cbn [app]. destruct Hm as [-> | ->].
    + destruct id as [|i0 id']; [discriminate Hl|].
      change (lit "v=" ++ (i0 :: id') ++ rest)
        with (118%N :: (61%N :: (i0 :: id') ++ rest)).
      cbn [leftmost_id].
      change (118%N :: (61%N :: (i0 :: id') ++ rest))
        with (lit "v=" ++ (i0 :: id') ++ rest).
      rewrite id_after_here by assumption. reflexivity.
    + destruct id as [|i0 id']; [discriminate Hl|].
      change (lit "/" ++ (i0 :: id') ++ rest) with (47%N :: ((i0 :: id') ++ rest)).
      cbn [leftmost_id].
      change (47%N :: ((i0 :: id') ++ rest)) with (lit "/" ++ (i0 :: id') ++ rest).
      rewrite id_after_here by assumption.
      destruct (id_after (lit "v=") (lit "/" ++ (i0 :: id') ++ rest)) eqn:Hv;
        [discriminate Hv|reflexivity].
  - cbn [app leftmost_id] in Hnone |- *.
    destruct (id_after (lit "v=") (c :: pre ++ marker)) eqn:H1; [discriminate|].
    destruct (id_after (lit "/") (c :: pre ++ marker)) eqn:H2; [discriminate|].
    assert (Hx : c :: pre ++ marker = (c :: pre ++ m') ++ [e])
      by (rewrite Hme; cbn [app]; rewrite <- app_assoc; reflexivity).
    assert (Hlen2 : 2 <= length (c :: pre ++ marker))
      by (cbn [length]; rewrite length_app; lia).
    assert (Hne : c :: pre ++ marker <> lit "v=").
    { intros Heq. change (lit "v=") with [118%N; 61%N] in Heq.
      injection Heq as _ Heq. destruct Hm as [-> | ->].
      - apply (f_equal (@length char)) in Heq. rewrite length_app in Heq.
        cbn in Heq. lia.
      - destruct pre as [|? [|? ?]]; discriminate Heq. }
    change (c :: pre ++ marker ++ id ++ rest) with ((c :: pre) ++ marker ++ id ++ rest).
    rewrite (app_assoc (c :: pre) marker (id ++ rest)).
    change ((c :: pre) ++ marker) with (c :: pre ++ marker).
    rewrite (@id_after_extend (lit "v=") _ (id ++ rest) _ e (or_introl eq_refl)
               Hx He Hlen2 Hne H1).
    rewrite (@id_after_extend (lit "/") _ (id ++ rest) _ e (or_intror eq_refl)
               Hx He Hlen2 Hne H2).
    apply IH, Hnone.
Qed.

Lemma lstrip_suffix : forall s, exists ws, s = ws ++ lstrip s.
Proof.
  induction s as [|c s [ws IH]]; [exists []; reflexivity|]. cbn [lstrip].
  destruct (is_space c); [|exists []; reflexivity].
  exists (c :: ws). cbn. f_equal. exact IH.
Qed.

Lemma marker_id_solid (marker id : str) :
  marker = lit "v=" \/ marker = lit "/" ->
  length id = 11 -> Forall (fun c => id_char c = true) id ->
  (exists c t, marker ++ id = c :: t /\ is_space c = false)
  /\ ends_solid (marker ++ id).
Proof.
  intros Hm Hl Hid. split.
  - destruct Hm as [-> | ->]; eexists; eexists; split;
      try (cbn [lit map String.list_ascii_of_string app]; reflexivity);
      vm_compute; reflexivity.
  - apply ends_solid_app. apply ids_solid; [|exact Hid].
    intros ->. discriminate Hl.
Qed.

Lemma strip_marker_id (pre marker id rest : str) :
  marker = lit "v=" \/ marker = lit "/" ->
  length id = 11 -> Forall (fun c => id_char c = true) id ->
  strip (pre ++ marker ++ id ++ rest) = lstrip pre ++ marker ++ id ++ rstrip rest.
Proof.
  intros Hm Hl Hid.
  destruct (marker_id_solid Hm Hl Hid) as [(c & t & Hc & Hs) He].
  rewrite (app_assoc marker id rest), (@strip_around pre (marker ++ id) rest c t Hc Hs He).
  rewrite <- app_assoc. reflexivity.
Qed.

End ScanFacts.

Import Scan ScanFacts.

(** ** Further properties of [extract_video_id] *)

(** X1. The identifier returned is the 11 identifier characters behind the
    leftmost "v=" or "/" of the stripped reference that has 11 identifier
    characters behind it; when there is none, the stripped reference itself
    if it is exactly 11 identifier characters; otherwise the ValueError. *)
Theorem extract_video_id_reads (youtube_url : str) :
  extract_video_id youtube_url
  = match leftmost_id (strip youtube_url) with
    | Some id => inr (Some id)
    | None =>
        if Nat.eqb (length (strip youtube_url)) 11 && forallb id_char (strip youtube_url)
        then inr (Some (strip youtube_url))
        else inl (ValueError (lit "Could not extract video ID from URL"))
    end.
Proof.
  unfold extract_video_id. rewrite first_group_scan. unfold video_id_of.
  destruct (leftmost_id (strip youtube_url)); [reflexivity|].
  rewrite bare_id_stripped.
  destruct (Nat.eqb (length (strip youtube_url)) 11 && forallb id_char (strip youtube_url));
    reflexivity.
Qed.

(** X2. The patterns for embed/, youtu.be/ and shorts/ never decide: with
    the first and the last pattern alone the loop gives the same result on
    every reference. *)
Theorem middle_patterns_redundant (youtube_url : str) :
  first_group patterns youtube_url
  = first_group [ Seq (Alt (Lit (lit "v=")) (Lit (lit "/"))) (Seq id11 DotStar);
                  Seq Bol (Seq id11 Eol) ] youtube_url.
Proof.
  rewrite first_group_scan. unfold video_id_of. cbn [first_group].
  unfold search at 1. rewrite search_first_pattern.
  destruct (leftmost_id youtube_url); [reflexivity|].
  rewrite search_bare_pattern. destruct (bare_id youtube_url); reflexivity.
Qed.

Lemma extract_video_id_scan (youtube_url : str) :
  extract_video_id youtube_url
  = match video_id_of (strip youtube_url) with
    | Some id => inr (Some id)
    | None => inl (ValueError (lit "Could not extract video ID from URL"))
    end.
Proof.
  unfold extract_video_id. rewrite first_group_scan.
  destruct (video_id_of (strip youtube_url)); reflexivity.
Qed.

Lemma forallb_Forall (p : char -> bool) (w : str) :
  Forall (fun c => p c = true) w -> forallb p w = true.
Proof. intros H. apply forallb_forall. apply Forall_forall, H. Qed.

Lemma extract_bare (id : str) :
  length id = 11 -> Forall (fun c => id_char c = true) id ->
  extract_video_id id = inr (Some id).
Proof.
  intros Hl Hid. rewrite extract_video_id_scan. unfold video_id_of.
  assert (Hne : id <> []) by (intros ->; discriminate Hl).
  destruct (ids_solid Hne Hid) as [(c & t & Hc & Hs) He].
  rewrite bare_id_stripped, (strip_solid Hc Hs He), (leftmost_id_ids Hid), Hl.
  rewrite (forallb_Forall _ Hid). reflexivity.
Qed.

(** X3. A reference that is exactly 11 identifier characters is its own
    identifier. *)
Theorem bare_identifier_accepted (id : str) :
  length id = 11 -> Forall (fun c => In c id_alphabet) id ->
  extract_video_id id = inr (Some id).
Proof.
  intros Hl Hid. apply extract_bare; [exact Hl|].
  eapply Forall_impl; [|exact Hid]. intros c Hc.
  assert (Hall : forallb id_char id_alphabet = true) by (vm_compute; reflexivity).
  rewrite forallb_forall in Hall. auto.
Qed.

Lemma Forall_In_by_existsb (l w : str) :
  forallb (fun c => existsb (N.eqb c) l) w = true -> Forall (fun c => In c l) w.
Proof.
  rewrite forallb_forall. intros H. apply Forall_forall. intros c Hc.
  apply H, existsb_exists in Hc as (a & Ha & Heq).
  apply N.eqb_eq in Heq. subst a. exact Ha.
Qed.

Lemma bare_identifier_accepted_witness :
  extract_video_id (lit "a_b-c_d-e_9") = inr (Some (lit "a_b-c_d-e_9")).
Proof.
  apply bare_identifier_accepted; [reflexivity|].
  apply Forall_In_by_existsb. vm_compute. reflexivity.
Defined.

(** X4. Extraction is idempotent: an identifier that was extracted is a
    reference that gives itself. *)
Theorem extract_video_id_idempotent (youtube_url id : str) :
  extract_video_id youtube_url = inr (Some id) ->
  extract_video_id id = inr (Some id).
Proof.
  intros H. unfold extract_video_id in H.
  destruct (first_group patterns (strip youtube_url)) as [g|] eqn:Hg; [|discriminate].
  injection H as ->.
  apply ExtractFacts.first_group_sound in Hg as (id' & [= <-] & Hlen & Hid);
    [|exact ExtractFacts.patterns_capture_ids].
  apply extract_bare; assumption.
Qed.

Lemma extract_video_id_idempotent_witness :
  extract_video_id (lit "dQw4w9WgXcQ") = inr (Some (lit "dQw4w9WgXcQ")).
Proof.
  apply (@extract_video_id_idempotent
           (lit "https://www.youtube.com/watch?v=dQw4w9WgXcQ&t=42s")).
  vm_compute. reflexivity.
Defined.

(** X5. A bare token of identifier characters whose length is not 11 is
    refused: there is no truncation and no padding of a bare reference. *)
Theorem bare_token_other_length_refused (w : str) :
  Forall (fun c => id_char c = true) w -> length w <> 11 ->
  extract_video_id w = inl (ValueError (lit "Could not extract video ID from URL")).
Proof.
  intros Hid Hl. rewrite extract_video_id_scan. unfold video_id_of.
  assert (Hs : strip w = w).
  { destruct w as [|c t]; [reflexivity|].
    destruct (@ids_solid (c :: t)) as [(c' & t' & Hc & Hsp) He];
      [discriminate|exact Hid|].
    exact (strip_solid Hc Hsp He). }
  rewrite bare_id_stripped, Hs, (leftmost_id_ids Hid).
  destruct (Nat.eqb_spec (length w) 11); [contradiction|reflexivity].
Qed.

Lemma bare_token_other_length_refused_witness :
  extract_video_id (lit "dQw4w9WgXcQQ")
  = inl (ValueError (lit "Could not extract video ID from URL")).
Proof.
  apply bare_token_other_length_refused.
  - repeat constructor.
  - vm_compute. discriminate.
Defined.

(** X6. Behind a marker, "v=" or "/", the first 11 identifier characters
    are returned whatever follows them, further identifier characters
    included, as soon as no earlier marker of the reference has 11
    identifier characters behind it. *)
Theorem identifier_behind_marker (pre marker id rest : str) :
  marker = lit "v=" \/ marker = lit "/" ->
  length id = 11 -> Forall (fun c => id_char c = true) id ->
  leftmost_id (pre ++ marker) = None ->
  extract_video_id (pre ++ marker ++ id ++ rest) = inr (Some id).
Proof.
  intros Hm Hl Hid Hpre. rewrite extract_video_id_scan. unfold video_id_of.
  rewrite (strip_marker_id pre rest Hm Hl Hid).
  destruct (lstrip_suffix pre) as (ws & Hws).
  rewrite Hws, <- app_assoc in Hpre. apply leftmost_id_suffix in Hpre.
  rewrite (leftmost_id_behind (rstrip rest) Hm Hl Hid _ Hpre). reflexivity.
Qed.

Lemma identifier_behind_marker_witness :
  extract_video_id (lit "https://example.org/watch?" ++ lit "v=" ++ lit "dQw4w9WgXcQ"
                    ++ lit "ZZZZ&list=1")
  = inr (Some (lit "dQw4w9WgXcQ")).
Proof.
  apply identifier_behind_marker.
  - left. reflexivity.
  - reflexivity.
  - repeat constructor.
  - vm_compute. reflexivity.
Defined.

(** X7. A reference that contains "v=" or "/" followed by 11 identifier
    characters is never refused, whatever stands around them: the host is
    not looked at. *)
Theorem marker_with_identifier_accepted (pre marker id rest : str) :
  marker = lit "v=" \/ marker = lit "/" ->
  length id = 11 -> Forall (fun c => id_char c = true) id ->
  exists id', extract_video_id (pre ++ marker ++ id ++ rest) = inr (Some id').
Proof.
  intros Hm Hl Hid. rewrite extract_video_id_scan. unfold video_id_of.
  rewrite (strip_marker_id pre rest Hm Hl Hid).
  destruct (leftmost_id (lstrip pre ++ marker ++ id ++ rstrip rest)) as [id'|] eqn:H;
    [eauto|].
  exfalso. apply leftmost_id_suffix in H.
  assert (H0 : leftmost_id ([] ++ marker) = None)
    by (destruct Hm as [-> | ->]; vm_compute; reflexivity).
  pose proof (leftmost_id_behind (rstrip rest) Hm Hl Hid [] H0) as H'.
  cbn [app] in H'. rewrite H in H'. discriminate H'.
Qed.

Lemma marker_with_identifier_accepted_witness :
  exists id', extract_video_id (lit "ftp://nowhere/x/abcdefghijk/" ++ lit "/"
                                ++ lit "dQw4w9WgXcQ" ++ lit " and more")
              = inr (Some id').
Proof.
  apply marker_with_identifier_accepted.
  - right. reflexivity.
  - reflexivity.
  - repeat constructor.
Defined.

(** X8. The identifier returned is a contiguous part of the stripped
    reference: no character is invented, dropped or changed. *)
Theorem identifier_is_part_of_reference (youtube_url id : str) :
  extract_video_id youtube_url = inr (Some id) ->
  exists a b, strip youtube_url = a ++ id ++ b.
Proof.
  rewrite extract_video_id_scan. unfold video_id_of.
  destruct (leftmost_id (strip youtube_url)) as [w|] eqn:Hw.
  - intros [= ->]. apply leftmost_id_infix, Hw.
  - rewrite bare_id_stripped.
    destruct (Nat.eqb (length (strip youtube_url)) 11
              && forallb id_char (strip youtube_url)); [|discriminate].
    intros [= <-]. exists [], []. rewrite app_nil_r. reflexivity.
Qed.

Lemma identifier_is_part_of_reference_witness :
  exists a b, strip (lit " https://youtu.be/dQw4w9WgXcQ?t=1 ")
              = a ++ lit "dQw4w9WgXcQ" ++ b.
Proof.
  apply identifier_is_part_of_reference. vm_compute. reflexivity.
Defined.

(** ** Further properties of the pipeline and of the route *)

Module RouteFacts.

Import PipelineFacts.

Section Runs.

Context {E : Collaborators}.

Lemma get_transcript_run (youtube_url : str) (w : World) (tr : list event) :
  exists r w',
    get_transcript youtube_url (w, tr) = (r, (w', tr))
    /\ (forall tr2, get_transcript youtube_url (w, tr2) = (r, (w', tr2)))
    /\ (forall e, r = inl e -> exists detail, e = HTTPException 400 detail)
    /\ (forall e, extract_video_id youtube_url = inl e -> w' = w).
Proof.
  unfold get_transcript, try_except, bind, call, ret, raise.
  destruct (extract_video_id youtube_url) as [e0|v].
  - exists (inl (HTTPException 400 (str_exn e0))), w. repeat split; auto.
    intros e [= <-]. eauto.
  - destruct (transcript_source v w) as [[e1|tl] w1] eqn:Hs.
    + exists (inl (HTTPException 400 (str_exn e1))), w1. repeat split; auto.
      * intros e [= <-]. eauto.
      * discriminate.
    + exists (inr tl), w1. repeat split; auto; discriminate.
Qed.

(** [summarize_with_groq] started on any trace. *)
Lemma summarize_with_groq_run_from (transcript language_code model_name mode : str)
  (w w' : World) (tr0 tr : list event) (r : result str) :
  summarize_with_groq transcript language_code model_name mode (w, tr0) = (r, (w', tr)) ->
  exists tr',
    tr = tr0 ++ tr'
    /\ run_shape model_name language_code (split_text 7000 1000 transcript) r tr'.
Proof.
  unfold summarize_with_groq. cbv zeta. unfold bind at 1.
  destruct (summarize_chunks_run model_name language_code
              (split_text 7000 1000 transcript) 0 [] w tr0)
    as (r1 & w1 & tr1 & Hrun & Hcases).
  rewrite Hrun.
  destruct Hcases as [(sums & Hl & -> & ->)|(k & sums & e & t & Hn & Hl & -> & ->)].
  - cbn [app]. unfold try_except, complete, groq_error, raise.
    destruct (chat_completions_create
                (synthesis_request model_name language_code sums) w1) as [[e|s] w2].
    + intros H. injection H as <- <- <-. eexists. rewrite <- app_assoc.
      split; [reflexivity|]. eapply run_synthesis_failed; eauto; reflexivity.
    + intros H. injection H as <- <- <-. eexists. rewrite <- app_assoc.
      split; [reflexivity|]. eapply run_ok; eauto; reflexivity.
  - intros H. injection H as <- <- <-. eexists.
    split; [reflexivity|]. eapply run_section_failed; eauto; reflexivity.
Qed.

Lemma segment_events_quiet (model_name language_code : str) : forall texts sums i,
  Forall (fun ev => is_log ev = false)
    (segment_events model_name language_code i texts sums).
Proof.
  induction texts as [|t texts IH]; intros [|c sums] i; cbn [segment_events];
    repeat constructor. apply IH.
Qed.

Lemma run_shape_quiet (model_name language_code : str) (texts : list str)
  (r : result str) (tr : list event) :
  run_shape model_name language_code texts r tr ->
  Forall (fun ev => is_log ev = false) tr.
Proof.
  intros [sums s _ _ ->|sums e _ _ ->|k sums e t _ _ _ ->];
    apply Forall_app; split; auto using segment_events_quiet; repeat constructor.
Qed.

Lemma segment_requests_standard (model_name language_code : str) : forall texts i,
  Forall (standard_request model_name)
    (segment_requests model_name language_code i texts).
Proof.
  induction texts as [|t texts IH]; intros i; cbn [segment_requests]; constructor; auto.
  repeat split.
Qed.

Lemma segment_requests_length (model_name language_code : str) : forall texts i,
  length (segment_requests model_name language_code i texts) = length texts.
Proof. induction texts as [|t texts IH]; intros i; cbn; auto. Qed.

Lemma summarize_video_steps (request : SummarizationRequest) (w : World) :
  summarize_video request (w, [])
  = match get_transcript (youtube_url request) (w, [log_requested request]) with
    | (inl e, (w1, tr1)) =>
        (inl (HTTPException 500 (lit "Internal Server Error")),
         (w1, tr1 ++ [log_failed e]))
    | (inr (transcript, _), st1) =>
        match summarize_with_groq transcript (target_language request)
                default_model_name (mode request) st1 with
        | (inl e, (w2, tr2)) =>
            (inl (HTTPException 500 (lit "Internal Server Error")),
             (w2, tr2 ++ [log_failed e]))
        | (inr s, (w2, tr2)) =>
            (inr {| summary := s; language := target_language request |},
             (w2, tr2 ++ [log_summarized request]))
        end
    end.
Proof.
  unfold summarize_video, logger_info, logger_error, try_except.
  unfold bind at 1. cbn [emit app]. fold (log_requested request).
  unfold bind at 1.
  destruct (get_transcript (youtube_url request) (w, [log_requested request]))
    as [[e|[transcript language_code]] [w1 tr1]]; [reflexivity|].
  unfold bind at 1.
  destruct (summarize_with_groq transcript (target_language request)
              default_model_name (mode request) (w1, tr1)) as [[e|s] [w2 tr2]];
    reflexivity.
Qed.

Lemma summarize_video_run (request : SummarizationRequest) (w w' : World)
  (r : result summary_response) (tr : list event) :
  summarize_video request (w, []) = (r, (w', tr)) -> route_run request r tr.
Proof.
  rewrite summarize_video_steps.
  destruct (get_transcript_run (youtube_url request) w [log_requested request])
    as (r1 & w1 & Hg & _). rewrite Hg.
  destruct r1 as [e|[transcript language_code]].
  - intros [= <- <- <-]. apply (route_failed request e (mid := [])). constructor.
  - destruct (summarize_with_groq transcript (target_language request)
                default_model_name (mode request) (w1, [log_requested request]))
      as [[e|s] [w2 tr2]] eqn:Hs;
      apply summarize_with_groq_run_from in Hs as (tr' & -> & Hshape);
      apply run_shape_quiet in Hshape; intros [= <- <- <-]; cbn [app].
    + apply route_failed, Hshape.
    + apply route_ok, Hshape.
Qed.

End Runs.

End RouteFacts.

Import RouteFacts.

(** X9. The route answers with the summary and the target language of the
    request, or raises an HTTPException of status 500 with the detail
    "Internal Server Error": no other status and no other detail leave it. *)
Theorem route_answers_or_500 (E : Collaborators) (request : SummarizationRequest)
  (w : World) :
  fst (summarize_video request (w, [])) = inl (HTTPException 500 (lit "Internal Server Error"))
  \/ exists s, fst (summarize_video request (w, []))
               = inr {| summary := s; language := target_language request |}.
Proof.
  destruct (summarize_video request (w, [])) as [r [w' tr]] eqn:Hrun.
  apply summarize_video_run in Hrun. destruct Hrun; cbn [fst]; eauto.
Qed.


(** X11. When the transcript cannot be had, no completion request is
    issued: the route logs the failure and raises its HTTPException of
    status 500. *)
Theorem no_completion_without_transcript (E : Collaborators)
  (request : SummarizationRequest) (w : World) (e : exn) :
  fst (get_transcript (youtube_url request) (w, [])) = inl e ->
  requests (snd (snd (summarize_video request (w, [])))) = []
  /\ snd (snd (summarize_video request (w, [])))
     = [log_requested request; log_failed e]
  /\ fst (summarize_video request (w, []))
     = inl (HTTPException 500 (lit "Internal Server Error")).
Proof.
  intros Hg. rewrite summarize_video_steps.
  destruct (get_transcript_run (youtube_url request) w []) as (r & w1 & H0 & Hany & _).
  rewrite H0 in Hg. cbn [fst] in Hg. subst r.
  rewrite (Hany [log_requested request]). auto.
Qed.

Lemma no_completion_without_transcript_witness :
  let run := @summarize_video (Demo.service 9) (Demo.request (lit "not a url")) (0, []) in
  requests (snd (snd run)) = []
  /\ snd (snd run)
     = [log_requested (Demo.request (lit "not a url"));
        @log_failed (Demo.service 9)
          (HTTPException 400 (lit "Could not extract video ID from URL"))]
  /\ fst run = inl (HTTPException 500 (lit "Internal Server Error")).
Proof.
  intros run.
  refine (@no_completion_without_transcript (Demo.service 9)
            (Demo.request (lit "not a url")) 0
            (HTTPException 400 (lit "Could not extract video ID from URL")) _).
  vm_compute. reflexivity.
Defined.

(** X12. The language code that comes with the transcript is never used:
    with a transcript source that tells no language every run of the route
    is the same. *)
Theorem transcript_language_is_ignored (E : Collaborators)
  (request : SummarizationRequest) (st : @state E) :
  @summarize_video (forget_language E) request st = @summarize_video E request st.
Proof.
  destruct st as [w tr].
  unfold summarize_video, logger_info, try_except, bind, emit, get_transcript,
    try_except, bind, call, ret, raise.
  destruct (extract_video_id (youtube_url request)) as [e|v]; [reflexivity|].
  cbn [transcript_source forget_language].
  destruct (@transcript_source E v w) as [[e|[text code]] w1]; reflexivity.
Qed.

(** X13. Every completion request of a run of [summarize_with_groq] names
    the model it was given, has temperature 0.7 and 8000 tokens at most, and
    has two messages, of the roles system and user in this order. *)
Theorem completion_requests_standard (E : Collaborators)
  (transcript language_code model_name mode : str) (w : World) :
  Forall (standard_request model_name)
    (requests (snd (snd (summarize_with_groq transcript language_code model_name mode
                           (w, []))))).
Proof.
  destruct (summarize_with_groq transcript language_code model_name mode (w, []))
    as [r [w' tr]] eqn:Hrun.
  apply PipelineFacts.summarize_with_groq_run in Hrun. cbn [snd].
  destruct Hrun as [sums s Hl _ ->|sums e Hl _ ->|k sums e t Hn Hl _ ->].
  - rewrite requests_of_run by exact Hl. apply Forall_app. split.
    + apply segment_requests_standard.
    + repeat constructor.
  - rewrite requests_of_run by exact Hl. apply Forall_app. split.
    + apply segment_requests_standard.
    + repeat constructor.
  - rewrite requests_of_run
      by (apply nth_error_lt in Hn; rewrite length_firstn; lia).
    apply Forall_app. split.
    + apply segment_requests_standard.
    + repeat constructor.
Qed.

(** X14. A run of [summarize_with_groq] over N sections issues N+1
    completion calls at most, each answered before the next; a call that
    fails is the last one of the run. *)
Theorem completion_calls_bounded (E : Collaborators)
  (transcript language_code model_name mode : str) (w : World) :
  let tr := snd (snd (summarize_with_groq transcript language_code model_name mode
                        (w, []))) in
  length (requests tr) = length (responses tr)
  /\ length (requests tr) <= length (split_text 7000 1000 transcript) + 1
  /\ exists contents last, responses tr = map inr contents ++ [last].
Proof.
  destruct (summarize_with_groq transcript language_code model_name mode (w, []))
    as [r [w' tr]] eqn:Hrun.
  apply PipelineFacts.summarize_with_groq_run in Hrun. cbn [snd].
  destruct Hrun as [sums s Hl _ ->|sums e Hl _ ->|k sums e t Hn Hl _ ->].
  - rewrite requests_of_run, responses_of_run by exact Hl.
    rewrite !length_app, length_map, segment_requests_length. cbn [length].
    repeat split; [lia|lia|eauto].
  - rewrite requests_of_run, responses_of_run by exact Hl.
    rewrite !length_app, length_map, segment_requests_length. cbn [length].
    repeat split; [lia|lia|eauto].
  - apply nth_error_lt in Hn.
    assert (Hl' : length sums = length (firstn k (split_text 7000 1000 transcript)))
      by (rewrite length_firstn; lia).
    rewrite requests_of_run, responses_of_run by exact Hl'.
    rewrite !length_app, length_map, segment_requests_length, length_firstn.
    cbn [length]. repeat split; [lia|lia|eauto].
Qed.

(** X15. [get_transcript] writes no log line and issues no completion
    request; it raises nothing but an HTTPException of status 400; and on a
    reference that gives no identifier it does not reach the transcript
    source, the detail being the text of the extractor's error. *)
Theorem get_transcript_failures (E : Collaborators) (youtube_url : str) (w : World)
  (tr : list event) :
  snd (snd (get_transcript youtube_url (w, tr))) = tr
  /\ (forall e, fst (get_transcript youtube_url (w, tr)) = inl e ->
        exists detail, e = HTTPException 400 detail)
  /\ (forall e0, extract_video_id youtube_url = inl e0 ->
        get_transcript youtube_url (w, tr) = (inl (HTTPException 400 (str_exn e0)), (w, tr))).
Proof.
  destruct (get_transcript_run youtube_url w tr) as (r & w' & Hg & _ & H400 & _).
  rewrite Hg. cbn [fst snd]. repeat split; auto.
  intros e0 He0. rewrite <- Hg. apply get_transcript_unparseable, He0.
Qed.

(** ** The body of [get_transcript], and [load_environment] *)

Module BodyFacts.

Section Body.

Context {E : Collaborators} {O : Os E} {A : TranscriptApi E}.

Lemma strip_blank (text : str) : forallb is_space text = true -> strip text = [].
Proof.
  intros H. pose proof (@ExtractFacts.strip_spaces text [] [] H eq_refl) as Hs.
  rewrite app_nil_r in Hs. exact Hs.
Qed.

(** The checks of the cookie file leave the trace alone and raise nothing
    but an HTTPException of status 400 or the error of the read. *)
Lemma cookies_file_checked_run (w : World) (tr : list event) :
  cookies_file_checked (w, tr)
  = if negb (path_exists (cookies_file_at w) w) then
      (inl (HTTPException 400
              (lit "Cookie file not found. Please set up authentication.")), (w, tr))
    else
      match read_file (cookies_file_at w) w with
      | (inl e, w1) => (inl e, (w1, tr))
      | (inr text, w1) =>
          match strip text with
          | [] => (inl (HTTPException 400
                          (lit "Cookie file is empty. Please re-export your cookies.")),
                   (w1, tr))
          | _ :: _ => (inr (cookies_file_at w), (w1, tr))
          end
      end.
Proof.
  unfold cookies_file_checked, look, call, bind, raise, ret.
  destruct (negb (path_exists (cookies_file_at w) w)); [reflexivity|].
  destruct (read_file (cookies_file_at w) w) as [[e|text] w1]; [reflexivity|].
  destruct (strip text); reflexivity.
Qed.

Lemma choose_transcript_run (l : transcript_list) (w : World) (tr : list event) :
  choose_transcript l (w, tr)
  = match find_manually_created_transcript l w with
    | (inr t, w1) => (inr t, (w1, tr))
    | (inl _, w1) =>
        match first_track l w1 with
        | (inr t, w2) => (inr t, (w2, tr))
        | (inl _, w2) =>
            (inl (HTTPException 400
                    (lit "Your YouTube cookies might have expired. Please refresh them.")),
             (w2, tr))
        end
    end.
Proof.
  unfold choose_transcript, try_except, call, raise.
  destruct (find_manually_created_transcript l w) as [[e|t] w1]; [|reflexivity].
  destruct (first_track l w1) as [[e'|t] w2]; reflexivity.
Qed.

Lemma fetch_steps_frame (video_id : option str) (w : World) (tr : list event) :
  exists r w',
    fetch_steps video_id (w, tr) = (r, (w', tr))
    /\ fetch_steps video_id (w, []) = (r, (w', [])).
Proof.
  unfold fetch_steps, cookies_file_checked, choose_transcript, look, call, bind,
    try_except, raise, ret.
  destruct (negb (path_exists (cookies_file_at w) w));
    [eexists; eexists; split; reflexivity|].
  destruct (read_file (cookies_file_at w) w) as [[e|text] w1];
    [eexists; eexists; split; reflexivity|].
  destruct (strip text); [eexists; eexists; split; reflexivity|].
  destruct (list_transcripts video_id (cookies_file_at w) w1) as [[e|l] w2];
    [eexists; eexists; split; reflexivity|].
  destruct (find_manually_created_transcript l w2) as [[e|t] w3].
  - destruct (first_track l w3) as [[e'|t] w4];
      [eexists; eexists; split; reflexivity|].
    destruct (fetch t w4) as [[e2|parts] w5];
      eexists; eexists; split; reflexivity.
  - destruct (fetch t w3) as [[e2|parts] w5];
      eexists; eexists; split; reflexivity.
Qed.

Lemma get_transcript_full_body (youtube_url : str) (st : state) :
  get_transcript_full youtube_url st
  = @get_transcript (with_body O A) youtube_url st.
Proof.
  destruct st as [w tr].
  assert (Hfull : get_transcript_full youtube_url (w, tr)
                  = match extract_video_id youtube_url with
                    | inl e => (inl (HTTPException 400 (str_exn e)), (w, tr))
                    | inr v =>
                        match fetch_steps v (w, tr) with
                        | (inl e, st') => (inl (HTTPException 400 (str_exn e)), st')
                        | (inr x, st') => (inr x, st')
                        end
                    end).
  { unfold get_transcript_full, fetch_steps, try_except, raise.
    unfold bind at 1. destruct (extract_video_id youtube_url); reflexivity. }
  rewrite Hfull. unfold get_transcript, try_except, bind, call, raise, ret.
  destruct (extract_video_id youtube_url) as [e|v]; [reflexivity|].
  cbn [transcript_source with_body].
  destruct (fetch_steps_frame v w tr) as (r & w' & H1 & H0).
  rewrite H1, H0. destruct r; reflexivity.
Qed.

Lemma get_transcript_full_steps (youtube_url : str) (w : World) (tr : list event) :
  get_transcript_full youtube_url (w, tr)
  = match extract_video_id youtube_url with
    | inl e => (inl (HTTPException 400 (str_exn e)), (w, tr))
    | inr v =>
        match fetch_steps v (w, tr) with
        | (inl e, st') => (inl (HTTPException 400 (str_exn e)), st')
        | (inr x, st') => (inr x, st')
        end
    end.
Proof.
  unfold get_transcript_full, fetch_steps, try_except, raise.
  unfold bind at 1. destruct (extract_video_id youtube_url); reflexivity.
Qed.

Lemma fetch_steps_cookies_failed (v : option str) (w w1 : World) (tr : list event)
  (e : exn) :
  cookies_file_checked (w, tr) = (inl e, (w1, tr)) ->
  fetch_steps v (w, tr) = (inl e, (w1, tr)).
Proof. intros H. unfold fetch_steps. unfold bind at 1. rewrite H. reflexivity. Qed.

End Body.

End BodyFacts.

Import BodyFacts.

(** X16. With no cookie file [get_transcript] fails before any file is read
    and before the transcript library is called; the HTTPException 400 it
    raises inside is caught by its own handler and wrapped again, so that
    the detail that leaves it is the text of that exception, not its
    detail. *)
Theorem cookie_file_missing (E : Collaborators) (O : Os E) (A : TranscriptApi E)
  (youtube_url : str) (v : option str) (w : World) (tr : list event) :
  extract_video_id youtube_url = inr v ->
  path_exists (cookies_file_at w) w = false ->
  get_transcript_full youtube_url (w, tr)
  = (inl (HTTPException 400
            (str_HTTPException 400
               (lit "Cookie file not found. Please set up authentication."))),
     (w, tr)).
Proof.
  intros Hv Hp. rewrite get_transcript_full_steps, Hv.
  rewrite (@fetch_steps_cookies_failed E O A v w w tr
             (HTTPException 400
                (lit "Cookie file not found. Please set up authentication."))).
  - reflexivity.
  - rewrite cookies_file_checked_run, Hp. reflexivity.
Qed.

Lemma cookie_file_missing_witness :
  @get_transcript_full (Demo.service 9) (DemoOs.os false []) (DemoOs.api [])
    (lit "https://youtu.be/dQw4w9WgXcQ") (0, [])
  = (inl (HTTPException 400
            (@str_HTTPException (Demo.service 9) 400
               (lit "Cookie file not found. Please set up authentication."))),
     (0, [])).
Proof.
  refine (@cookie_file_missing (Demo.service 9) (DemoOs.os false []) (DemoOs.api [])
            (lit "https://youtu.be/dQw4w9WgXcQ") (Some (lit "dQw4w9WgXcQ")) 0 [] _ _).
  - vm_compute. reflexivity.
  - reflexivity.
Defined.

(** X17. A cookie file that holds white space only counts as empty:
    [get_transcript] fails with status 400 after the read, and the
    transcript library is not called. *)
Theorem cookie_file_blank (E : Collaborators) (O : Os E) (A : TranscriptApi E)
  (youtube_url : str) (v : option str) (w w1 : World) (tr : list event) (text : str) :
  extract_video_id youtube_url = inr v ->
  path_exists (cookies_file_at w) w = true ->
  read_file (cookies_file_at w) w = (inr text, w1) ->
  forallb is_space text = true ->
  get_transcript_full youtube_url (w, tr)
  = (inl (HTTPException 400
            (str_HTTPException 400
               (lit "Cookie file is empty. Please re-export your cookies."))),
     (w1, tr)).
Proof.
  intros Hv Hp Hr Hb. rewrite get_transcript_full_steps, Hv.
  rewrite (@fetch_steps_cookies_failed E O A v w w1 tr
             (HTTPException 400
                (lit "Cookie file is empty. Please re-export your cookies."))).
  - reflexivity.
  - rewrite cookies_file_checked_run, Hp, Hr, (strip_blank _ Hb). reflexivity.
Qed.

Lemma cookie_file_blank_witness :
  @get_transcript_full (Demo.service 9) (DemoOs.os true (lit "  ")) (DemoOs.api [])
    (lit "https://youtu.be/dQw4w9WgXcQ") (0, [])
  = (inl (HTTPException 400
            (@str_HTTPException (Demo.service 9) 400
               (lit "Cookie file is empty. Please re-export your cookies."))),
     (0, [])).
Proof.
  refine (@cookie_file_blank (Demo.service 9) (DemoOs.os true (lit "  "))
            (DemoOs.api []) (lit "https://youtu.be/dQw4w9WgXcQ")
            (Some (lit "dQw4w9WgXcQ")) 0 0 [] (lit "  ") _ _ _ _).
  - vm_compute. reflexivity.
  - reflexivity.
  - reflexivity.
  - reflexivity.
Defined.



(** X19. A video for which the library finds no manually created
    transcript and gives no first track leaves [get_transcript] as an
    HTTPException 400 whose text speaks of expired cookies: the two causes
    are dropped. *)
Theorem no_track_reported_as_cookies (E : Collaborators) (O : Os E)
  (A : TranscriptApi E) (youtube_url : str) (v : option str) (cookies_file : str)
  (l : transcript_list) (w w1 w2 w3 w4 : World) (tr : list event) (e1 e2 : exn) :
  extract_video_id youtube_url = inr v ->
  cookies_file_checked (w, tr) = (inr cookies_file, (w1, tr)) ->
  list_transcripts v cookies_file w1 = (inr l, w2) ->
  find_manually_created_transcript l w2 = (inl e1, w3) ->
  first_track l w3 = (inl e2, w4) ->
  get_transcript_full youtube_url (w, tr)
  = (inl (HTTPException 400
            (str_HTTPException 400
               (lit "Your YouTube cookies might have expired. Please refresh them."))),
     (w4, tr)).
Proof.
  intros Hv Hc Hl Hf Hn. rewrite get_transcript_full_steps, Hv.
  unfold fetch_steps. unfold bind at 1. rewrite Hc.
  unfold bind at 1. unfold call at 1. rewrite Hl.
  unfold bind at 1. rewrite choose_transcript_run, Hf, Hn. reflexivity.
Qed.

Lemma no_track_reported_as_cookies_witness :
  @get_transcript_full (Demo.service 9) (DemoOs.os true (lit "cookie")) (DemoOs.api [])
    (lit "https://youtu.be/dQw4w9WgXcQ") (0, [])
  = (inl (HTTPException 400
            (@str_HTTPException (Demo.service 9) 400
               (lit "Your YouTube cookies might have expired. Please refresh them."))),
     (0, [])).
Proof.
  refine (@no_track_reported_as_cookies (Demo.service 9) (DemoOs.os true (lit "cookie"))
            (DemoOs.api []) (lit "https://youtu.be/dQw4w9WgXcQ")
            (Some (lit "dQw4w9WgXcQ")) (lit "cookies.txt") [] 0 0 0 0 0 []
            (OtherException (lit "NoTranscriptFound"))
            (OtherException (lit "StopIteration")) _ _ _ _ _).
  - vm_compute. reflexivity.
  - vm_compute. reflexivity.
  - reflexivity.
  - reflexivity.
  - reflexivity.
Defined.

(** X20. [load_environment] never returns an empty key: a GROQ_API_KEY that
    is set to the empty string is refused with the same ValueError as one
    that is not set; a key that is returned is the value of GROQ_API_KEY
    after the .env file, if there is one, was loaded; and without a .env
    file the environment is left as it is. *)
Theorem load_environment_key (E : Collaborators) (O : Os E) (w : World)
  (tr : list event) :
  let w' := if path_exists dotenv_path w then load_dotenv dotenv_path w else w in
  snd (load_environment (w, tr)) = (w', tr)
  /\ (forall k, fst (load_environment (w, tr)) = inr k ->
        k <> [] /\ getenv (lit "GROQ_API_KEY") w' = Some k)
  /\ (getenv (lit "GROQ_API_KEY") w' = None \/ getenv (lit "GROQ_API_KEY") w' = Some [] ->
      fst (load_environment (w, tr))
      = inl (ValueError (lit "GROQ_API_KEY not found in environment variables"))).
Proof.
  intros w'.
  assert (Hrun : load_environment (w, tr)
                 = (match getenv (lit "GROQ_API_KEY") w' with
                    | Some (c :: k) => inr (c :: k)
                    | _ => inl (ValueError
                                  (lit "GROQ_API_KEY not found in environment variables"))
                    end, (w', tr))).
  { subst w'. unfold load_environment, look, call, bind, ret, raise.
    destruct (path_exists dotenv_path w).
    - destruct (getenv (lit "GROQ_API_KEY") (load_dotenv dotenv_path w)) as [[|c k]|];
        reflexivity.
    - destruct (getenv (lit "GROQ_API_KEY") w) as [[|c k]|]; reflexivity. }
  rewrite Hrun. cbn [fst snd]. split; [reflexivity|]. split.
  - intros k Hk. destruct (getenv (lit "GROQ_API_KEY") w') as [[|c k']|];
      try discriminate Hk.
    injection Hk as <-. split; [discriminate|reflexivity].
  - intros [H|H]; rewrite H; reflexivity.
Qed.

(** X21. The route over the body of [get_transcript]: without a cookie file
    the caller gets the HTTPException 500 "Internal Server Error", no
    completion request is issued, and the log ends with the ERROR line that
    holds the text of the 400. *)
Theorem route_without_cookie_file (E : Collaborators) (O : Os E) (A : TranscriptApi E)
  (request : SummarizationRequest) (v : option str) (w : World) :
  extract_video_id (youtube_url request) = inr v ->
  path_exists (cookies_file_at w) w = false ->
  @summarize_video (with_body O A) request (w, [])
  = (inl (HTTPException 500 (lit "Internal Server Error")),
     (w, [log_requested request;
          @log_failed (with_body O A)
            (HTTPException 400
               (str_HTTPException 400
                  (lit "Cookie file not found. Please set up authentication.")))])).
Proof.
  intros Hv Hp.
  assert (Hg : get_transcript_full (youtube_url request) (w, [log_requested request])
               = (inl (HTTPException 400
                         (str_HTTPException 400
                            (lit "Cookie file not found. Please set up authentication."))),
                  (w, [log_requested request]))).
  { rewrite get_transcript_full_steps, Hv.
    rewrite (@fetch_steps_cookies_failed E O A v w w [log_requested request]
               (HTTPException 400
                  (lit "Cookie file not found. Please set up authentication."))).
    - reflexivity.
    - rewrite cookies_file_checked_run, Hp. reflexivity. }
  rewrite get_transcript_full_body in Hg.
  rewrite (@summarize_video_steps (with_body O A)).
  change (@World (with_body O A)) with (@World E) in *.
  rewrite Hg. reflexivity.
Qed.

Lemma route_without_cookie_file_witness :
  @summarize_video (with_body (DemoOs.os false []) (DemoOs.api []))
    (Demo.request (lit "https://youtu.be/dQw4w9WgXcQ")) (0, [])
  = (inl (HTTPException 500 (lit "Internal Server Error")),
     (0, [log_requested (Demo.request (lit "https://youtu.be/dQw4w9WgXcQ"));
          @log_failed (with_body (DemoOs.os false []) (DemoOs.api []))
            (HTTPException 400
               (@str_HTTPException (Demo.service 9) 400
                  (lit "Cookie file not found. Please set up authentication.")))])).
Proof.
  refine (@route_without_cookie_file (Demo.service 9) (DemoOs.os false [])
            (DemoOs.api []) (Demo.request (lit "https://youtu.be/dQw4w9WgXcQ"))
            (Some (lit "dQw4w9WgXcQ")) 0 _ _).
  - vm_compute. reflexivity.
  - reflexivity.
Defined.
